(** * sheetsORM: the GoogleDB record store of src/index.ts

    A shallow embedding of the class [GoogleDB] (schema binding, record
    decoding, query matching and the create / find / findOne / update /
    delete protocol) together with the properties of its specification.

    Modelling conventions.
    - A JavaScript string is a [string]; every character stands for one
      UTF-16 code unit below 256.
    - A JavaScript number is kept as the exact value its literal denotes
      (sign, decimal mantissa, decimal exponent); rounding to a binary64 is
      not applied.  Whether a parse yields NaN does not depend on that
      rounding, and a literal whose exact value is zero stays zero.
    - A plain object is the list of its own enumerable properties in
      enumeration order (the order of [for (key in o)] and [Object.keys]);
      keys that look like array indices are not treated specially.  A read
      [o[k]] that misses the own properties falls through to
      [Object.prototype].
    - The Sheets transport is external.  Every call the code awaits takes
      its outcome (the value returned, or the exception raised) as an
      argument, and every mutating call the code issues is recorded in the
      list of requests an operation returns.  [console] output is dropped. *)

From Stdlib Require Import List String Ascii ZArith NArith Bool Arith Lia Permutation.
Import ListNotations.
Open Scope string_scope.

(** ** JavaScript values *)

Module Js.

(** Numbers: NaN, the two infinities, and (-1)^negative * mantissa * 10^exponent. *)
Inductive number : Type :=
| NaN
| Infinity (negative : bool)
| Finite (negative : bool) (mantissa : N) (exponent : Z).

Definition isNaN (n : number) : bool :=
  match n with NaN => true | _ => false end.

Definition zero : number := Finite false 0 0.
Definition one : number := Finite false 1 0.

(** The values an [any] slot holds in this program: primitives, and the
    members of [Object.prototype] a property read can fall through to. *)
Inductive value : Type :=
| VUndefined
| VNull
| VBool (b : bool)
| VNumber (n : number)
| VString (s : string)
| VInherited (name : string).

Inductive typeName : Type :=
| TyUndefined | TyObject | TyBoolean | TyNumber | TyString | TyFunction.

Definition typeof (v : value) : typeName :=
  match v with
  | VUndefined => TyUndefined
  | VNull => TyObject
  | VBool _ => TyBoolean
  | VNumber _ => TyNumber
  | VString _ => TyString
  | VInherited name => if String.eqb name "__proto__" then TyObject else TyFunction
  end.

(** Property names every plain object inherits from [Object.prototype]. *)
Definition Object_prototype : list string :=
  [ "constructor"; "__defineGetter__"; "__defineSetter__"; "hasOwnProperty";
    "__lookupGetter__"; "__lookupSetter__"; "isPrototypeOf";
    "propertyIsEnumerable"; "toString"; "valueOf"; "__proto__";
    "toLocaleString" ].

Definition inherited (k : string) : bool :=
  existsb (String.eqb k) Object_prototype.

(** Plain objects: own enumerable properties, in enumeration order. *)
Definition object (A : Type) : Type := list (string * A).

Fixpoint own {A : Type} (o : object A) (k : string) : option A :=
  match o with
  | [] => None
  | (k', v) :: o' => if String.eqb k k' then Some v else own o' k
  end.

Definition keys {A : Type} (o : object A) : list string := map fst o.

(** [o[k]] on an object of values. *)
Definition get (o : object value) (k : string) : value :=
  match own o k with
  | Some v => v
  | None => if inherited k then VInherited k else VUndefined
  end.

(** [o[k] = v]: an existing own property keeps its place. *)
Fixpoint put {A : Type} (o : object A) (k : string) (v : A) : object A :=
  match o with
  | [] => [(k, v)]
  | (k', v') :: o' =>
      if String.eqb k k' then (k', v) :: o' else (k', v') :: put o' k v
  end.

(** *** Arrays

    An array is the list of its elements; a hole reads as [undefined] and
    is stored as such.  Reading outside the array yields [undefined];
    writing outside extends it. *)

Definition elem (a : list value) (i : nat) : value :=
  nth i a VUndefined.

Definition store {A : Type} (hole : A) (a : list A) (i : nat) (v : A) : list A :=
  if (i <? List.length a)%nat
  then firstn i a ++ v :: skipn (S i) a
  else a ++ repeat hole (i - List.length a)%nat ++ [v].

(** *** StringToNumber

    [Number(s)] for a string [s], after the StringNumericLiteral grammar:
    optional white space around an optional numeric literal, which is a
    signed decimal literal, [Infinity], or an unsigned hexadecimal, octal
    or binary integer. *)

Definition isStrWhiteSpaceChar (c : ascii) : bool :=
  let n := N_of_ascii c in
  ((9 <=? n) && (n <=? 13) || (n =? 32) || (n =? 160))%N.

Fixpoint trimStart (l : list ascii) : list ascii :=
  match l with
  | c :: l' => if isStrWhiteSpaceChar c then trimStart l' else l
  | [] => []
  end.

Definition trim (l : list ascii) : list ascii :=
  rev (trimStart (rev (trimStart l))).

Definition digitValue (c : ascii) : option N :=
  let n := N_of_ascii c in
  (if (48 <=? n) && (n <=? 57) then Some (n - 48)
   else if (97 <=? n) && (n <=? 102) then Some (n - 87)
   else if (65 <=? n) && (n <=? 70) then Some (n - 55)
   else None)%N.

Definition digitIn (base : N) (c : ascii) : option N :=
  match digitValue c with
  | Some d => if (d <? base)%N then Some d else None
  | None => None
  end.

(** The longest prefix of digits of the base, and what follows it. *)
Fixpoint spanDigits (base : N) (l : list ascii) : list N * list ascii :=
  match l with
  | c :: l' =>
      match digitIn base c with
      | Some d => let (ds, r) := spanDigits base l' in (d :: ds, r)
      | None => ([], l)
      end
  | [] => ([], [])
  end.

Definition digitsValue (base : N) (ds : list N) : N :=
  fold_left (fun acc d => acc * base + d)%N ds 0%N.

Definition isChar (c : ascii) (s : string) : bool :=
  String.eqb (String c EmptyString) s.

(** ExponentPart_opt, which must end the literal. *)
Definition exponentPart (neg : bool) (m : N) (e0 : Z) (l : list ascii) : number :=
  match l with
  | [] => Finite neg m e0
  | c :: l' =>
      if isChar c "e" || isChar c "E" then
        let '(eneg, l'') :=
          match l' with
          | s :: r => if isChar s "-" then (true, r)
                      else if isChar s "+" then (false, r)
                      else (false, l')
          | [] => (false, l')
          end in
        match spanDigits 10 l'' with
        | ((_ :: _) as ds, []) =>
            let e := Z.of_N (digitsValue 10 ds) in
            Finite neg m (if eneg then e0 - e else e0 + e)
        | _ => NaN
        end
      else NaN
  end.

(** StrUnsignedDecimalLiteral. *)
Definition unsignedDecimal (neg : bool) (l : list ascii) : number :=
  if String.eqb (string_of_list_ascii l) "Infinity" then Infinity neg
  else
    let (ip, r1) := spanDigits 10 l in
    match r1 with
    | c :: r2 =>
        if isChar c "." then
          let (fp, r3) := spanDigits 10 r2 in
          match ip, fp with
          | [], [] => NaN
          | _, _ => exponentPart neg (digitsValue 10 (ip ++ fp))
                                 (- Z.of_nat (List.length fp)) r3
          end
        else
          match ip with
          | [] => NaN
          | _ => exponentPart neg (digitsValue 10 ip) 0 r1
          end
    | [] =>
        match ip with
        | [] => NaN
        | _ => Finite neg (digitsValue 10 ip) 0
        end
    end.

(** NonDecimalIntegerLiteral: the digits after the two-character prefix. *)
Definition nonDecimal (base : N) (l : list ascii) : number :=
  match spanDigits base l with
  | ((_ :: _) as ds, []) => Finite false (digitsValue base ds) 0
  | _ => NaN
  end.

Definition strNumericLiteral (l : list ascii) : number :=
  match l with
  | z :: x :: r =>
      if isChar z "0" && (isChar x "x" || isChar x "X") then nonDecimal 16 r
      else if isChar z "0" && (isChar x "o" || isChar x "O") then nonDecimal 8 r
      else if isChar z "0" && (isChar x "b" || isChar x "B") then nonDecimal 2 r
      else if isChar z "-" then unsignedDecimal true (x :: r)
      else if isChar z "+" then unsignedDecimal false (x :: r)
      else unsignedDecimal false l
  | _ => unsignedDecimal false l
  end.

Definition StringToNumber (s : string) : number :=
  match trim (list_ascii_of_string s) with
  | [] => zero
  | l => strNumericLiteral l
  end.

(** [Number(v)]. *)
Definition Number (v : value) : number :=
  match v with
  | VUndefined => NaN
  | VNull => zero
  | VBool true => one
  | VBool false => zero
  | VNumber n => n
  | VString s => StringToNumber s
  | VInherited _ => NaN
  end.

(** [a === b] where [a] is a string. *)
Definition strictEqualsString (s : string) (v : value) : bool :=
  match v with
  | VString t => String.eqb s t
  | _ => false
  end.

End Js.

Import Js.

(** ** Exceptions, results and the transport *)

Inductive exn : Type :=
| Error (message : string)
| TypeError (message : string).

Definition message (e : exn) : string :=
  match e with Error m => m | TypeError m => m end.

(** [String(e)], as [new Error(error as string)] computes it. *)
Definition exnToString (e : exn) : string :=
  match e with
  | Error m => "Error: " ++ m
  | TypeError m => "TypeError: " ++ m
  end.

(** Reading a property of [undefined]. *)
Definition readOfUndefined (prop : string) : exn :=
  TypeError ("Cannot read properties of undefined (reading '" ++ prop ++ "')").

(** How an awaited call to an external collaborator ends. *)
Inductive outcome (A : Type) : Type :=
| Returned (a : A)
| Failed (e : exn).
Arguments Returned {A} a.
Arguments Failed {A} e.

(** How a method ends: it returns, it throws, or it never resumes from
    awaiting a promise that is not settled. *)
Inductive result (A : Type) : Type :=
| Ok (a : A)
| Throw (e : exn)
| Suspended.
Arguments Ok {A} a.
Arguments Throw {A} e.
Arguments Suspended {A}.

Inductive valueInputOption : Type := RAW | USER_ENTERED.

(** The ranges the code writes to: [`${name}!A1`],
    [`${name}!A${n}:${n}`] and the bare sheet name. *)
Inductive range : Type :=
| A1
| RowNumber (n : nat)
| Sheet.

(** The mutating calls: [values.update] and [values.append], each with
    the single row it carries. *)
Inductive request : Type :=
| ValuesUpdate (rng : range) (opt : valueInputOption) (row : list value)
| ValuesAppend (rng : range) (opt : valueInputOption) (row : list value).

(** What [values.get] hands back in [data.values]: the rows of strings,
    or nothing at all for an empty range. *)
Definition grid : Type := list (list string).

(** ** The data model *)

Inductive fieldType : Type := TString | TNumber | TBoolean.

Definition typeTag (t : fieldType) : typeName :=
  match t with TString => TyString | TNumber => TyNumber | TBoolean => TyBoolean end.

Definition typeText (t : fieldType) : string :=
  match t with TString => "string" | TNumber => "number" | TBoolean => "boolean" end.

Definition typeNameEqb (a b : typeName) : bool :=
  match a, b with
  | TyUndefined, TyUndefined | TyObject, TyObject | TyBoolean, TyBoolean
  | TyNumber, TyNumber | TyString, TyString | TyFunction, TyFunction => true
  | _, _ => false
  end.

Record SchemaField : Type := mkField {
  type : fieldType;
  required : option bool;
  index : option nat
}.

Definition Schema : Type := object SchemaField.

Inductive promise : Type :=
| Pending
| Fulfilled (v : string)
| Rejected (e : exn).

Record GoogleDB : Type := mkDB {
  schema : Schema;
  headers : list string;
  sheets : bool;          (* whether [this.sheets] has been assigned *)
  isReady : promise
}.

(** [await p]. *)
Definition await (p : promise) : result string :=
  match p with
  | Pending => Suspended
  | Fulfilled v => Ok v
  | Rejected e => Throw e
  end.

(** ** parseBooleanNumber and the decoding of a cell *)

Definition parseBooleanNumber (val : value) : value :=
  if strictEqualsString "TRUE" val then VBool true
  else if strictEqualsString "FALSE" val then VBool false
  else
    let num := Number val in
    if negb (isNaN num) && negb (strictEqualsString "" val) then VNumber num
    else val.

(** [row[j] || ""] for a row of strings: [None] is [undefined]. *)
Definition orEmpty (cell : option string) : value :=
  match cell with
  | Some s => if String.eqb s "" then VString "" else VString s
  | None => VString ""
  end.

Definition decodeCell (cell : option string) : value :=
  parseBooleanNumber (orEmpty cell).

(** ** Header binding: addHeaders *)

Definition has (set : list string) (key : string) : bool :=
  existsb (String.eqb key) set.

(** [for (let key in schema) if (!prevHeadersSet.has(key)) prevHeaders.push(key)] *)
Fixpoint pushMissing (prevHeadersSet : list string) (ks : list string)
         (prevHeaders : list string) : list string :=
  match ks with
  | [] => prevHeaders
  | key :: ks' =>
      pushMissing prevHeadersSet ks'
        (if has prevHeadersSet key then prevHeaders else prevHeaders ++ [key])
  end.

Definition setIndex (f : SchemaField) (i : nat) : SchemaField :=
  mkField (type f) (required f) (Some i).

(** [for (i = 0; i < prevHeaders.length; i++)
       if (schema[prevHeaders[i]]) schema[prevHeaders[i]].index = i]
    over the headers from position [i] on.  An assignment that lands on
    a member of [Object.prototype] leaves the schema as it is. *)
Fixpoint assignIndex (hs : list string) (i : nat) (s : Schema) : Schema :=
  match hs with
  | [] => s
  | h :: hs' =>
      assignIndex hs' (S i)
        (match own s h with
         | Some f => put s h (setIndex f i)
         | None => s
         end)
  end.

Definition mergeHeaders (fetched : option (list string)) (s : Schema) : list string :=
  let prevHeaders := match fetched with Some row => row | None => ["__ID"] end in
  pushMissing prevHeaders (keys s) prevHeaders.

Record binding : Type := mkBinding {
  boundSchema : Schema;
  boundHeaders : list string;
  issued : list request;
  bindResult : result unit
}.

(** [addHeaders(schema)] on an instance whose [headers] is [hs0].
    [getRes] is the first row of the answer to [values.get] on [1:1]
    ([data.values?.[0]]), [updateRes] the end of [values.update]. *)
Definition addHeaders (s : Schema) (hs0 : list string)
           (getRes : outcome (option (list string)))
           (updateRes : outcome unit) : binding :=
  match getRes with
  | Failed e => mkBinding s hs0 [] (Throw (Error (exnToString e)))
  | Returned fetched =>
      let prevHeaders := mergeHeaders fetched s in
      let s' := assignIndex prevHeaders 0 s in
      mkBinding s' prevHeaders
        [ValuesUpdate A1 RAW (map VString prevHeaders)]
        (match updateRes with
         | Returned _ => Ok tt
         | Failed e => Throw (Error (exnToString e))
         end)
  end.

(** ** The readiness barrier: the constructor's promise *)

Inductive settleCall : Type :=
| Resolve (v : string)
| Reject (e : exn).

(** A promise takes the first settlement and ignores the later ones. *)
Definition settle (p : promise) (c : settleCall) : promise :=
  match p with
  | Pending => match c with Resolve v => Fulfilled v | Reject e => Rejected e end
  | _ => p
  end.

Record startup : Type := mkStartup {
  calls : list settleCall;      (* calls of [resolve] / [reject], in order *)
  started : binding;
  authorized : bool
}.

(** The executor passed to [new Promise]: [addGoogleAuth], then
    [addHeaders], inside one [try]. *)
Definition executor (s : Schema) (authRes : outcome unit)
           (getRes : outcome (option (list string)))
           (updateRes : outcome unit) : startup :=
  match authRes with
  | Failed _ => mkStartup [Resolve "reject"] (mkBinding s [] [] (Ok tt)) false
  | Returned _ =>
      let b := addHeaders s [] getRes updateRes in
      match bindResult b with
      | Ok _ => mkStartup [Resolve "success"] b true
      | _ => mkStartup [Resolve "reject"] b true
      end
  end.

(** [new GoogleDB({auth, spreadSheetLink, spreadSheetName, schema})],
    with the requests its startup issued. *)
Definition construct (s : Schema) (authRes : outcome unit)
           (getRes : outcome (option (list string)))
           (updateRes : outcome unit) : list request * GoogleDB :=
  let st := executor s authRes getRes updateRes in
  (issued (started st),
   mkDB (boundSchema (started st)) (boundHeaders (started st))
        (authorized st) (fold_left settle (calls st) Pending)).

(** ** Row matching: the inner [for (let key in query)] loop *)

(** [this.schema[key].index].  A key the schema lacks but every object
    inherits finds a member of [Object.prototype], whose [index] is
    [undefined] (no header is taken to bear such a name). *)
Definition schemaIndex (s : Schema) (key : string) : result (option nat) :=
  match own s key with
  | Some f => Ok (index f)
  | None => if inherited key then Ok None else Throw (readOfUndefined "index")
  end.

(** [row[i]] where [i] may be [undefined]. *)
Definition cellAt (row : list string) (i : option nat) : option string :=
  match i with
  | Some n => nth_error row n
  | None => None
  end.

(** [cell !== expected] for a cell of a fetched row. *)
Definition strictNotEqual (cell : option string) (expected : value) : bool :=
  match cell with
  | Some s => negb (strictEqualsString s expected)
  | None => match expected with VUndefined => false | _ => true end
  end.

(** The value of [filtered] when the loop over the query ends, or the
    exception that ends it. *)
Fixpoint filtered (s : Schema) (row : list string) (query : object value)
  : result bool :=
  match query with
  | [] => Ok false
  | (key, expected) :: query' =>
      if String.eqb key "__ID" then
        if strictNotEqual (nth_error row 0) expected then Ok true
        else filtered s row query'
      else
        match schemaIndex s key with
        | Ok i =>
            if strictNotEqual (cellAt row i) expected then Ok true
            else filtered s row query'
        | Throw e => Throw e
        | Suspended => Suspended
        end
  end.

(** ** Reading: convertDataToJSONWithFilters(One) *)

(** [tempRow = [...row]; tempRow[0] = ""; tempRow.join("")] *)
Definition rowJoin (row : list string) : string :=
  String.concat "" (store "" row 0 "").

(** [for (j = 0; j < keys.length; j++) obj[keys[j]] = parseBooleanNumber(row[j] || "")]
    from position [j] on. *)
Fixpoint fillObject (row : list string) (ks : list string) (j : nat)
         (obj : object value) : object value :=
  match ks with
  | [] => obj
  | k :: ks' => fillObject row ks' (S j) (put obj k (decodeCell (nth_error row j)))
  end.

Definition rowToObject (s : Schema) (row : list string) : object value :=
  fillObject row ("__ID" :: keys s) 0 [].

(** The loop [for (i = 1; i < data.length; i++)] over the rows still to
    visit, [jsonData] holding what has been pushed so far. *)
Fixpoint convertRows (s : Schema) (rows : grid) (query : object value)
         (jsonData : list (object value)) : result (list (object value)) :=
  match rows with
  | [] => Ok jsonData
  | row :: rows' =>
      match filtered s row query with
      | Ok true => convertRows s rows' query jsonData
      | Ok false =>
          if String.eqb (rowJoin row) "" then convertRows s rows' query jsonData
          else convertRows s rows' query (jsonData ++ [rowToObject s row])
      | Throw e => Throw e
      | Suspended => Suspended
      end
  end.

Definition convertDataToJSONWithFilters (s : Schema) (data : option grid)
           (query : object value) : result (list (object value)) :=
  match data with
  | None => Throw (readOfUndefined "length")
  | Some d => convertRows s (tl d) query []
  end.

Fixpoint convertRowsOne (s : Schema) (rows : grid) (query : object value)
  : result (option (object value)) :=
  match rows with
  | [] => Ok None
  | row :: rows' =>
      match filtered s row query with
      | Ok true => convertRowsOne s rows' query
      | Ok false =>
          if String.eqb (rowJoin row) "" then convertRowsOne s rows' query
          else Ok (Some (rowToObject s row))
      | Throw e => Throw e
      | Suspended => Suspended
      end
  end.

Definition convertDataToJSONWithFiltersOne (s : Schema) (data : option grid)
           (query : object value) : result (option (object value)) :=
  match data with
  | None => Throw (readOfUndefined "length")
  | Some d => convertRowsOne s (tl d) query
  end.

(** ** The locate scan of update and delete *)

(** The loop [for (i = 1; i < allData.length; i++)] from row [i] on:
    the first row left unfiltered, with its index. *)
Fixpoint scan (s : Schema) (rows : grid) (query : object value) (i : nat)
  : result (option (nat * list string)) :=
  match rows with
  | [] => Ok None
  | row :: rows' =>
      match filtered s row query with
      | Ok true => scan s rows' query (S i)
      | Ok false => Ok (Some (i, row))
      | Throw e => Throw e
      | Suspended => Suspended
      end
  end.

Definition locate (s : Schema) (allData : option grid) (query : object value)
  : result (nat * list string) :=
  match allData with
  | None => Throw (Error "Cannot find row with this query!")
  | Some d =>
      match scan s (tl d) query 1 with
      | Ok (Some found) => Ok found
      | Ok None => Throw (Error "Cannot find row with this query!")
      | Throw e => Throw e
      | Suspended => Suspended
      end
  end.

(** ** The public operations *)

(** [a[i] = v] where [i] may be [undefined]; the assignment then makes a
    property named "undefined", which is no element of the array. *)
Definition storeAt (a : list value) (i : option nat) (v : value) : list value :=
  match i with
  | Some n => store VUndefined a n v
  | None => a
  end.

Definition truthy (b : option bool) : bool :=
  match b with Some true => true | _ => false end.

Definition isUndefined (v : value) : bool :=
  match v with VUndefined => true | _ => false end.

(** The loop of [create] over the schema, [newValues] being the row
    assembled so far. *)
Fixpoint createLoop (fields : Schema) (data : object value)
         (newValues : list value) : result (list value) :=
  match fields with
  | [] => Ok newValues
  | (key, f) :: fields' =>
      if truthy (required f) && isUndefined (get data key)
      then Throw (Error (key ++ " field is required!"))
      else createLoop fields' data (storeAt newValues (index f) (get data key))
  end.

(** [create(data)]: [uniqueID] is what [uid()] returns, [appendRes] the
    end of [values.append]. *)
Definition create (db : GoogleDB) (uniqueID : string) (data : object value)
           (appendRes : outcome unit) : list request * result (object value) :=
  match await (isReady db) with
  | Ok _ =>
      match createLoop (schema db) data [VString uniqueID] with
      | Ok newValues =>
          if sheets db then
            ([ValuesAppend Sheet RAW newValues],
             match appendRes with
             | Returned _ => Ok (put data "__ID" (VString uniqueID))
             | Failed e => Throw (Error (message e))
             end)
          else ([], Throw (Error (message (readOfUndefined "spreadsheets"))))
      | Throw e => ([], Throw (Error (message e)))
      | Suspended => ([], Suspended)
      end
  | Throw e => ([], Throw e)
  | Suspended => ([], Suspended)
  end.

(** [find(query)]: [getRes] is [data.values] of the answer to [values.get]. *)
Definition find (db : GoogleDB) (getRes : outcome (option grid))
           (query : object value) : result (list (object value)) :=
  match await (isReady db) with
  | Ok _ =>
      if sheets db then
        match getRes with
        | Returned values => convertDataToJSONWithFilters (schema db) values query
        | Failed e => Throw e
        end
      else Throw (readOfUndefined "spreadsheets")
  | Throw e => Throw e
  | Suspended => Suspended
  end.

Definition findOne (db : GoogleDB) (getRes : outcome (option grid))
           (query : object value) : result (option (object value)) :=
  match await (isReady db) with
  | Ok _ =>
      if sheets db then
        match getRes with
        | Returned values => convertDataToJSONWithFiltersOne (schema db) values query
        | Failed e => Throw e
        end
      else Throw (readOfUndefined "spreadsheets")
  | Throw e => Throw e
  | Suspended => Suspended
  end.

(** The first loop of [update] over the schema: validation and
    overwriting, [rowToUpdate] being the row as overwritten so far. *)
Fixpoint patchLoop (fields : Schema) (newData : object value)
         (rowToUpdate : list value) : result (list value) :=
  match fields with
  | [] => Ok rowToUpdate
  | (key, f) :: fields' =>
      if negb (isUndefined (get newData key)) then
        if negb (typeNameEqb (typeTag (type f)) (typeof (get newData key)))
        then Throw (Error (key ++ " field should be of type " ++ typeText (type f)))
        else patchLoop fields' newData
               (storeAt rowToUpdate (index f) (get newData key))
      else patchLoop fields' newData rowToUpdate
  end.

(** [a[i]] where [i] may be [undefined]. *)
Definition elemAt (a : list value) (i : option nat) : value :=
  match i with
  | Some n => elem a n
  | None => VUndefined
  end.

(** The second loop of [update]: [newData[key] = parseBooleanNumber(rowToUpdate[index])]. *)
Fixpoint readBack (fields : Schema) (rowToUpdate : list value)
         (newData : object value) : object value :=
  match fields with
  | [] => newData
  | (key, f) :: fields' =>
      readBack fields' rowToUpdate
        (put newData key (parseBooleanNumber (elemAt rowToUpdate (index f))))
  end.

(** [update(query, newData)]: [getRes] and [updateRes] are the ends of
    [values.get] and [values.update]. *)
Definition update (db : GoogleDB) (getRes : outcome (option grid))
           (query newData : object value) (updateRes : outcome unit)
  : list request * result (object value) :=
  match await (isReady db) with
  | Ok _ =>
      if sheets db then
        match getRes with
        | Returned allData =>
            match locate (schema db) allData query with
            | Ok (rowIndexToUpdate, row) =>
                match patchLoop (schema db) newData (map VString row) with
                | Ok rowToUpdate =>
                    ([ValuesUpdate (RowNumber (rowIndexToUpdate + 1)) USER_ENTERED rowToUpdate],
                     match updateRes with
                     | Returned _ => Ok (readBack (schema db) rowToUpdate newData)
                     | Failed e => Throw e
                     end)
                | Throw e => ([], Throw e)
                | Suspended => ([], Suspended)
                end
            | Throw e => ([], Throw e)
            | Suspended => ([], Suspended)
            end
        | Failed e => ([], Throw e)
        end
      else ([], Throw (readOfUndefined "spreadsheets"))
  | Throw e => ([], Throw e)
  | Suspended => ([], Suspended)
  end.

(** [delete(query)]: the located row, filled with "", is written back. *)
Definition delete (db : GoogleDB) (getRes : outcome (option grid))
           (query : object value) (updateRes : outcome unit)
  : list request * result unit :=
  match await (isReady db) with
  | Ok _ =>
      if sheets db then
        match getRes with
        | Returned allData =>
            match locate (schema db) allData query with
            | Ok (rowIndexToUpdate, row) =>
                ([ValuesUpdate (RowNumber (rowIndexToUpdate + 1)) USER_ENTERED
                    (map (fun _ => VString "") row)],
                 match updateRes with
                 | Returned _ => Ok tt
                 | Failed e => Throw e
                 end)
            | Throw e => ([], Throw e)
            | Suspended => ([], Suspended)
            end
        | Failed e => ([], Throw e)
        end
      else ([], Throw (readOfUndefined "spreadsheets"))
  | Throw e => ([], Throw e)
  | Suspended => ([], Suspended)
  end.

(** ** Notions the properties are stated with *)

(** The place of the last occurrence of [k] in [hs], counted from [i]. *)
Fixpoint lastPosition (k : string) (hs : list string) (i : nat) : option nat :=
  match hs with
  | [] => None
  | h :: hs' =>
      match lastPosition k hs' (S i) with
      | Some p => Some p
      | None => if String.eqb k h then Some i else None
      end
  end.

(** Whether a field is bound to position [p]. *)
Definition atIndex (f : SchemaField) (p : nat) : bool :=
  match index f with Some n => Nat.eqb n p | None => false end.

(** The value the last present field bound to position [p] writes there. *)
Fixpoint lastWrite (fields : Schema) (newData : object value) (p : nat)
  : option value :=
  match fields with
  | [] => None
  | (k, f) :: fields' =>
      match lastWrite fields' newData p with
      | Some v => Some v
      | None =>
          if negb (isUndefined (get newData k)) && atIndex f p
          then Some (get newData k) else None
      end
  end.

(** The header write of the binding, which only startup issues. *)
Definition rebinds (r : request) : bool :=
  match r with
  | ValuesUpdate A1 _ _ => true
  | _ => false
  end.

(** A tombstone: every cell after the identity cell is empty. *)
Definition tombstone (row : list string) : Prop :=
  Forall (fun c => c = "") (tl row).

(** The rows [find] and [findOne] take: left unfiltered by the query
    loop and not joined to the empty string. *)
Definition selected (s : Schema) (query : object value) (row : list string) : bool :=
  match filtered s row query with
  | Ok false => negb (String.eqb (rowJoin row) "")
  | _ => false
  end.

(** A substring test, to tell the messages of [update] apart. *)
Fixpoint contains (sub s : string) : bool :=
  String.prefix sub s
  || match s with
     | EmptyString => false
     | String _ s' => contains sub s'
     end.

(** ** A running example: the table of the specification *)

Definition exampleSchema : Schema :=
  [ ("name", mkField TString (Some true) None);
    ("age", mkField TNumber (Some true) None) ].

Definition exampleWider : Schema :=
  [ ("email", mkField TString None None);
    ("age", mkField TNumber (Some true) None);
    ("name", mkField TString (Some true) None) ].

(** The instance built over a sheet whose header row is already
    [__ID | name]. *)
Definition exampleDB : GoogleDB :=
  snd (construct exampleSchema (Returned tt)
         (Returned (Some ["__ID"; "name"])) (Returned tt)).

(** The table of the specification's example, with a second record. *)
Definition exampleTable : grid :=
  [ ["__ID"; "name"; "age"];
    ["id-1"; "Ann"; "30"];
    ["id-2"; "Bob"; "41"] ].

(** The fetched table after the record of its first data row was
    deleted: a blanked row in the middle comes back as an empty row. *)
Definition tableWithTombstone : grid :=
  [ ["__ID"; "name"; "age"];
    [];
    ["id-2"; "Bob"; "41"];
    ["id-3"; "Cy"; "7"] ].

(** ** extractIdAndGid

    The two calls of [url.match]: one with the pattern "/d/", any
    characters (the group), "/edit"; one with the pattern "gid=", one or
    more digits (the group).  A match is the leftmost position at which
    the pattern matches, the quantifiers being greedy; the dot matches
    any character but a line terminator. *)

Abbreviation chars := list_ascii_of_string (only parsing).

Definition isLineTerminator (c : ascii) : bool :=
  let n := N_of_ascii c in ((n =? 10) || (n =? 13))%N.

Definition isDecimalDigit (c : ascii) : bool :=
  let n := N_of_ascii c in ((48 <=? n) && (n <=? 57))%N.

(** Whether the characters of [pat] come first in [l]. *)
Fixpoint startsWith (pat l : list ascii) : bool :=
  match pat, l with
  | [], _ => true
  | p :: pat', c :: l' => Ascii.eqb p c && startsWith pat' l'
  | _ :: _, [] => false
  end.

(** The greedy dot-star group followed by the literal [lit]: the
    longest run of characters other than line terminators after which
    [lit] comes. *)
Fixpoint dotStarThen (lit l : list ascii) : option (list ascii) :=
  match l with
  | [] => if startsWith lit [] then Some [] else None
  | c :: l' =>
      match (if isLineTerminator c then None else dotStarThen lit l') with
      | Some captured => Some (c :: captured)
      | None => if startsWith lit l then Some [] else None
      end
  end.

(** A match of the first pattern that starts at the head of [l]. *)
Definition idMatchAt (l : list ascii) : option (list ascii) :=
  if startsWith (list_ascii_of_string "/d/") l
  then dotStarThen (list_ascii_of_string "/edit") (skipn 3 l)
  else None.

Fixpoint takeDigits (l : list ascii) : list ascii :=
  match l with
  | c :: l' => if isDecimalDigit c then c :: takeDigits l' else []
  | [] => []
  end.

(** A match of the second pattern that starts at the head of [l]. *)
Definition gidMatchAt (l : list ascii) : option (list ascii) :=
  if startsWith (list_ascii_of_string "gid=") l
  then match takeDigits (skipn 4 l) with
       | [] => None
       | ds => Some ds
       end
  else None.

(** The first group of the leftmost match. *)
Fixpoint firstMatch (matchAt : list ascii -> option (list ascii))
         (l : list ascii) : option (list ascii) :=
  match matchAt l with
  | Some captured => Some captured
  | None =>
      match l with
      | [] => None
      | _ :: l' => firstMatch matchAt l'
      end
  end.

Record IdAndGid : Type := mkIdAndGid {
  id : option string;      (* [None] is [null] *)
  gid : option string
}.

Definition extractIdAndGid (url : string) : IdAndGid :=
  let idMatch := firstMatch idMatchAt (list_ascii_of_string url) in
  let gidMatch := firstMatch gidMatchAt (list_ascii_of_string url) in
  mkIdAndGid (option_map string_of_list_ascii idMatch)
             (option_map string_of_list_ascii gidMatch).

(** Whether [pat] occurs somewhere in [l]. *)
Fixpoint occurs (pat l : list ascii) : bool :=
  startsWith pat l
  || match l with
     | [] => false
     | _ :: l' => occurs pat l'
     end.

(** The link of the demonstration script. *)
Definition sheetLink : string :=
  "https://docs.google.com/spreadsheets/d/1Z5FFXPsi_1wrq-DiuDtK-qfZz_pC6za0ZJXR4JHyIbs/edit#gid=2076195736".

(** ** Matching, said without the loops *)

(** A key the query loop can read an index for. *)
Definition knownKey (s : Schema) (k : string) : bool :=
  String.eqb k "__ID"
  || match own s k with
     | Some _ => true
     | None => inherited k
     end.

(** The cell a query key is compared with. *)
Definition queriedCell (s : Schema) (row : list string) (k : string) : option string :=
  if String.eqb k "__ID" then nth_error row 0
  else cellAt row (match own s k with Some f => index f | None => None end).

(** One key of the query holds on the row. *)
Definition holds (s : Schema) (row : list string) (kv : string * value) : bool :=
  negb (strictNotEqual (queriedCell s row (fst kv)) (snd kv)).

(** Every key of the query holds on the row, and the row is not blank. *)
Definition matches (s : Schema) (query : object value) (row : list string) : bool :=
  forallb (holds s row) query && negb (String.eqb (rowJoin row) "").

(** A value no cell of a fetched row is strictly equal to: cells are
    strings, a missing cell is [undefined]. *)
Definition neverACell (v : value) : bool :=
  match v with
  | VString _ | VUndefined => false
  | _ => true
  end.

(** The value the last field bound to position [p] stores there in
    [create], where every field of the schema stores. *)
Fixpoint lastStore (fields : Schema) (data : object value) (p : nat)
  : option value :=
  match fields with
  | [] => None
  | (k, f) :: fields' =>
      match lastStore fields' data p with
      | Some v => Some v
      | None => if atIndex f p then Some (get data k) else None
      end
  end.


(** * Properties *)

Open Scope list_scope.

(** ** Objects and arrays *)

Section ObjectFacts.
Variable A : Type.
Implicit Types (o : object A) (k h : string) (v : A).

Lemma own_put o k h v :
  own (put o h v) k = if String.eqb k h then Some v else own o k.
Proof.
  induction o as [|[k' v'] o IH]; simpl.
  - destruct (String.eqb k h); reflexivity.
  - destruct (String.eqb h k') eqn:Ehk; simpl.
    + apply String.eqb_eq in Ehk; subst k'.
      destruct (String.eqb k h); reflexivity.
    + rewrite IH.
      destruct (String.eqb k k') eqn:Ekk; [|reflexivity].
      apply String.eqb_eq in Ekk; subst k'.
      rewrite String.eqb_sym, Ehk. reflexivity.
Qed.

Lemma keys_put_own o h v v0 :
  own o h = Some v0 -> keys (put o h v) = keys o.
Proof.
  unfold keys.
  induction o as [|[k' v'] o IH]; simpl; [discriminate|].
  destruct (String.eqb h k') eqn:E; simpl; intros H.
  - reflexivity.
  - rewrite IH; auto.
Qed.

Lemma own_some_in_keys o k v : own o k = Some v -> In k (keys o).
Proof.
  unfold keys.
  induction o as [|[k' v'] o IH]; simpl; [discriminate|].
  destruct (String.eqb k k') eqn:E; intros H.
  - apply String.eqb_eq in E. auto.
  - right. apply IH; exact H.
Qed.

Lemma in_keys_own o k : In k (keys o) -> exists v, own o k = Some v.
Proof.
  unfold keys.
  induction o as [|[k' v'] o IH]; simpl; [tauto|].
  intros [->|H].
  - rewrite String.eqb_refl. eauto.
  - destruct (String.eqb k k'); eauto.
Qed.
End ObjectFacts.

Lemma has_true set k : has set k = true <-> In k set.
Proof.
  unfold has. rewrite existsb_exists. split.
  - intros (x & Hx & E). apply String.eqb_eq in E. subst; exact Hx.
  - intros H. exists k. split; [exact H|apply String.eqb_refl].
Qed.

Lemma has_false set k : has set k = false <-> ~ In k set.
Proof.
  rewrite <- has_true. destruct (has set k); split; congruence.
Qed.

Lemma has_app a b k : has (a ++ b) k = has a k || has b k.
Proof. unfold has. apply existsb_app. Qed.

(** Reading an array after one store. *)
Lemma nth_store (A : Type) (hole : A) (a : list A) (n p : nat) (v : A) :
  nth p (store hole a n v) hole = if Nat.eqb p n then v else nth p a hole.
Proof.
  unfold store.
  destruct (Nat.ltb_spec n (List.length a)) as [Hlt|Hge].
  - destruct (Nat.eqb_spec p n) as [->|Hne].
    + rewrite app_nth2; rewrite length_firstn, Nat.min_l by lia; [|lia].
      rewrite Nat.sub_diag. reflexivity.
    + destruct (Nat.lt_ge_cases p n) as [Hp|Hp].
      * rewrite app_nth1 by (rewrite length_firstn; lia).
        rewrite nth_firstn.
        destruct (Nat.ltb_spec p n); [reflexivity|lia].
      * rewrite app_nth2; rewrite length_firstn, Nat.min_l by lia; [|lia].
        destruct (p - n) as [|q] eqn:Eq; [lia|]. cbn [nth].
        rewrite nth_skipn. f_equal. lia.
  - destruct (Nat.lt_ge_cases p (List.length a)) as [Hp|Hp].
    + rewrite app_nth1 by exact Hp.
      destruct (Nat.eqb_spec p n); [lia|reflexivity].
    + rewrite app_nth2 by exact Hp.
      rewrite (nth_overflow a) by exact Hp.
      destruct (Nat.eqb_spec p n) as [->|Hne].
      * rewrite app_nth2; rewrite repeat_length; [|lia].
        rewrite Nat.sub_diag. reflexivity.
      * destruct (Nat.lt_ge_cases p n) as [Hpn|Hpn].
        -- rewrite app_nth1 by (rewrite repeat_length; lia).
           apply nth_repeat.
        -- rewrite app_nth2; rewrite repeat_length; [|lia].
           destruct (p - List.length a - (n - List.length a)) as [|q] eqn:Eq; [lia|].
           simpl. destruct q; reflexivity.
Qed.

Lemma elem_storeAt (a : list value) (i : option nat) (p : nat) (v : value) :
  elem (storeAt a i v) p =
  match i with
  | Some n => if Nat.eqb p n then v else elem a p
  | None => elem a p
  end.
Proof.
  destruct i as [n|]; simpl; [|reflexivity].
  apply nth_store.
Qed.

(** ** Decoding of cells *)

Lemma orEmpty_some (v : string) : orEmpty (Some v) = VString v.
Proof.
  unfold orEmpty. destruct (String.eqb_spec v ""); congruence.
Qed.

Lemma decodeCell_some (v : string) :
  decodeCell (Some v) =
  if String.eqb "TRUE" v then VBool true
  else if String.eqb "FALSE" v then VBool false
  else if negb (isNaN (StringToNumber v)) && negb (String.eqb "" v)
       then VNumber (StringToNumber v)
       else VString v.
Proof.
  unfold decodeCell. rewrite orEmpty_some. reflexivity.
Qed.

Lemma trimStart_white (l : list ascii) :
  Forall (fun c => isStrWhiteSpaceChar c = true) l -> trimStart l = [].
Proof.
  induction 1 as [|c l Hc _ IH]; simpl; [reflexivity|].
  rewrite Hc. exact IH.
Qed.

Lemma StringToNumber_white (v : string) :
  Forall (fun c => isStrWhiteSpaceChar c = true) (list_ascii_of_string v) ->
  StringToNumber v = zero.
Proof.
  intros H. unfold StringToNumber, trim.
  rewrite (trimStart_white _ H). reflexivity.
Qed.

(** C3.  Decode coercion.  A missing cell decodes as the empty string
    does, to the empty string; "TRUE" and "FALSE" decode to the booleans;
    any other string whose numeric parse succeeds and which is not empty
    decodes to that number; any other string whose parse fails, and the
    empty string, decode to themselves; and the record decoded from a row
    depends on the schema through its field names only, not through the
    declared types. *)
Theorem decode_coercion (v : string) :
  decodeCell None = decodeCell (Some "")
  /\ decodeCell (Some "") = VString ""
  /\ decodeCell (Some "TRUE") = VBool true
  /\ decodeCell (Some "FALSE") = VBool false
  /\ (v <> "TRUE" -> v <> "FALSE" ->
      isNaN (StringToNumber v) = false -> v <> "" ->
      decodeCell (Some v) = VNumber (StringToNumber v))
  /\ (v <> "TRUE" -> v <> "FALSE" ->
      isNaN (StringToNumber v) = true \/ v = "" ->
      decodeCell (Some v) = VString v)
  /\ (forall (s1 s2 : Schema) (row : list string),
      keys s1 = keys s2 -> rowToObject s1 row = rowToObject s2 row).
Proof.
  repeat split; try reflexivity.
  - intros HT HF Hnum Hne. rewrite decodeCell_some.
    destruct (String.eqb_spec "TRUE" v); [congruence|].
    destruct (String.eqb_spec "FALSE" v); [congruence|].
    rewrite Hnum. destruct (String.eqb_spec "" v); [congruence|].
    reflexivity.
  - intros HT HF Hor. rewrite decodeCell_some.
    destruct (String.eqb_spec "TRUE" v); [congruence|].
    destruct (String.eqb_spec "FALSE" v); [congruence|].
    destruct Hor as [Hnan| ->].
    + rewrite Hnan. reflexivity.
    + reflexivity.
  - intros s1 s2 row Hk. unfold rowToObject. rewrite Hk. reflexivity.
Qed.

Lemma decode_coercion_witness :
  ("1.5e3" <> "TRUE" /\ "1.5e3" <> "FALSE" /\
   isNaN (StringToNumber "1.5e3") = false /\ "1.5e3" <> "")
  /\ decodeCell (Some "1.5e3") = VNumber (Finite false 15 2)
  /\ ("abc" <> "TRUE" /\ "abc" <> "FALSE" /\
      (isNaN (StringToNumber "abc") = true \/ "abc" = ""))
  /\ decodeCell (Some "abc") = VString "abc".
Proof.
  assert (H1 : "1.5e3" <> "TRUE") by discriminate.
  assert (H2 : "1.5e3" <> "FALSE") by discriminate.
  assert (H3 : isNaN (StringToNumber "1.5e3") = false) by reflexivity.
  assert (H4 : "1.5e3" <> "") by discriminate.
  assert (G1 : "abc" <> "TRUE") by discriminate.
  assert (G2 : "abc" <> "FALSE") by discriminate.
  assert (G3 : isNaN (StringToNumber "abc") = true \/ "abc" = "")
    by (left; reflexivity).
  split; [repeat split; assumption|].
  split.
  - destruct (decode_coercion "1.5e3") as (_ & _ & _ & _ & Hnum & _).
    exact (Hnum H1 H2 H3 H4).
  - split; [repeat split; assumption|].
    destruct (decode_coercion "abc") as (_ & _ & _ & _ & _ & Hstr & _).
    exact (Hstr G1 G2 G3).
Defined.

(** C10.  Every nonempty cell string whose numeric parse succeeds
    decodes to that number; in particular every nonempty string made of
    white space only decodes to the number 0, as " " does, while the
    empty string decodes to the empty string. *)
Theorem whitespace_decodes_to_zero (v : string) :
  (v <> "" -> isNaN (StringToNumber v) = false ->
   decodeCell (Some v) = VNumber (StringToNumber v))
  /\ (v <> "" ->
      Forall (fun c => isStrWhiteSpaceChar c = true) (list_ascii_of_string v) ->
      decodeCell (Some v) = VNumber zero)
  /\ decodeCell (Some " ") = VNumber zero
  /\ decodeCell (Some "") = VString "".
Proof.
  assert (Hnum : v <> "" -> isNaN (StringToNumber v) = false ->
                 decodeCell (Some v) = VNumber (StringToNumber v)).
  { intros Hne Hok. rewrite decodeCell_some.
    destruct (String.eqb_spec "TRUE" v) as [<-|_]; [discriminate Hok|].
    destruct (String.eqb_spec "FALSE" v) as [<-|_]; [discriminate Hok|].
    rewrite Hok. destruct (String.eqb_spec "" v); [congruence|]. reflexivity. }
  repeat split; try reflexivity; try exact Hnum.
  intros Hne Hws.
  rewrite Hnum; [|exact Hne|rewrite (StringToNumber_white _ Hws); reflexivity].
  rewrite (StringToNumber_white _ Hws). reflexivity.
Qed.

Lemma whitespace_decodes_to_zero_witness :
  let tabs := String (ascii_of_nat 9) (String (ascii_of_nat 32) (String (ascii_of_nat 10) "")) in
  (tabs <> ""
   /\ Forall (fun c => isStrWhiteSpaceChar c = true) (list_ascii_of_string tabs)
   /\ decodeCell (Some tabs) = VNumber zero)
  /\ (" 42 " <> "" /\ isNaN (StringToNumber " 42 ") = false
      /\ decodeCell (Some " 42 ") = VNumber (Finite false 42 0)).
Proof.
  intros tabs.
  assert (H1 : tabs <> "") by discriminate.
  assert (H2 : Forall (fun c => isStrWhiteSpaceChar c = true)
                      (list_ascii_of_string tabs))
    by (repeat constructor).
  assert (G1 : " 42 " <> "") by discriminate.
  assert (G2 : isNaN (StringToNumber " 42 ") = false) by reflexivity.
  split.
  - split; [exact H1|split; [exact H2|]].
    destruct (whitespace_decodes_to_zero tabs) as (_ & Hws & _).
    exact (Hws H1 H2).
  - split; [exact G1|split; [exact G2|]].
    destruct (whitespace_decodes_to_zero " 42 ") as (Hnum & _).
    exact (Hnum G1 G2).
Defined.

(** ** Header binding *)

Lemma pushMissing_filter (set ks prev : list string) :
  pushMissing set ks prev = prev ++ filter (fun k => negb (has set k)) ks.
Proof.
  revert prev. induction ks as [|k ks IH]; intros prev; simpl.
  - rewrite app_nil_r. reflexivity.
  - rewrite IH. destruct (has set k); simpl; [reflexivity|].
    rewrite <- app_assoc. reflexivity.
Qed.

Lemma lastPosition_none k hs i : has hs k = false -> lastPosition k hs i = None.
Proof.
  revert i. induction hs as [|h hs IH]; intros i; simpl; [reflexivity|].
  intros H. apply orb_false_iff in H. destruct H as [Hk Hh].
  rewrite IH by exact Hh. rewrite Hk. reflexivity.
Qed.

Lemma lastPosition_some k hs i :
  has hs k = true -> exists p, lastPosition k hs i = Some p.
Proof.
  revert i. induction hs as [|h hs IH]; intros i; simpl; [discriminate|].
  intros H. destruct (lastPosition k hs (S i)) as [p|] eqn:E; [eauto|].
  destruct (String.eqb k h); [eauto|].
  simpl in H. destruct (IH (S i) H) as [p Hp]. congruence.
Qed.

Lemma lastPosition_app k hs extra i :
  has extra k = false ->
  lastPosition k (hs ++ extra) i = lastPosition k hs i.
Proof.
  intros Hx. revert i. induction hs as [|h hs IH]; intros i; simpl.
  - apply lastPosition_none; exact Hx.
  - rewrite IH. reflexivity.
Qed.

(** A last position is a position of the key, and no later one is. *)
Lemma lastPosition_sound k hs i p :
  lastPosition k hs i = Some p ->
  i <= p /\ nth_error hs (p - i) = Some k
  /\ forall j, p - i < j -> nth_error hs j <> Some k.
Proof.
  revert i p. induction hs as [|h hs IH]; intros i p; simpl; [discriminate|].
  destruct (lastPosition k hs (S i)) as [q|] eqn:E.
  - intros [= <-]. destruct (IH (S i) q E) as (Hle & Hnth & Hlast).
    split; [lia|]. split.
    + replace (q - i) with (S (q - S i)) by lia. exact Hnth.
    + intros j Hj. destruct j as [|j]; [lia|]. simpl.
      apply Hlast. lia.
  - destruct (String.eqb_spec k h) as [->|Hne]; [|discriminate].
    intros [= <-]. split; [lia|]. rewrite Nat.sub_diag. split; [reflexivity|].
    intros j Hj. destruct j as [|j]; [lia|]. simpl.
    intros Hin. apply nth_error_In in Hin.
    assert (Hhas : has hs h = true) by (apply has_true; exact Hin).
    destruct (lastPosition_some h hs (S i) Hhas) as [q Hq]. congruence.
Qed.

(** What the index loop leaves in a field: the last place of its name
    among the headers visited, or its former index when the name is not
    among them. *)
Lemma own_assignIndex (hs : list string) (i : nat) (s : Schema) (k : string) :
  own (assignIndex hs i s) k =
  match own s k with
  | Some f =>
      Some (match lastPosition k hs i with
            | Some p => setIndex f p
            | None => f
            end)
  | None => None
  end.
Proof.
  revert i s. induction hs as [|h hs IH]; intros i s; simpl.
  - destruct (own s k); reflexivity.
  - rewrite IH. destruct (own s h) as [fh|] eqn:Eh.
    + rewrite own_put. destruct (String.eqb_spec k h) as [->|Hne].
      * rewrite Eh. destruct (lastPosition h hs (S i)); reflexivity.
      * destruct (own s k); [|reflexivity].
        destruct (lastPosition k hs (S i)); reflexivity.
    + destruct (String.eqb_spec k h) as [->|Hne].
      * rewrite Eh. reflexivity.
      * destruct (own s k); [|reflexivity].
        destruct (lastPosition k hs (S i)); reflexivity.
Qed.

Lemma keys_assignIndex (hs : list string) (i : nat) (s : Schema) :
  keys (assignIndex hs i s) = keys s.
Proof.
  revert i s. induction hs as [|h hs IH]; intros i s; simpl; [reflexivity|].
  rewrite IH. destruct (own s h) as [f|] eqn:E; [|reflexivity].
  eapply keys_put_own; exact E.
Qed.

Lemma mergeHeaders_filter (fetched : option (list string)) (s : Schema) :
  mergeHeaders fetched s =
  let H := match fetched with Some row => row | None => ["__ID"] end in
  H ++ filter (fun k => negb (has H k)) (keys s).
Proof. unfold mergeHeaders. apply pushMissing_filter. Qed.

Lemma mergeHeaders_has (fetched : option (list string)) (s : Schema) (k : string) :
  In k (keys s) -> has (mergeHeaders fetched s) k = true.
Proof.
  intros Hin. rewrite mergeHeaders_filter. cbv zeta.
  set (H := match fetched with Some row => row | None => ["__ID"] end).
  rewrite has_app. destruct (has H k) eqn:E; [reflexivity|]. simpl.
  apply has_true. apply filter_In. split; [exact Hin|]. rewrite E. reflexivity.
Qed.

(** The index a bound field carries. *)
Lemma addHeaders_index (s : Schema) hs0 fetched updateRes (k : string) (f : SchemaField) :
  own s k = Some f ->
  exists p,
    lastPosition k (mergeHeaders fetched s) 0 = Some p
    /\ own (boundSchema (addHeaders s hs0 (Returned fetched) updateRes)) k
       = Some (setIndex f p).
Proof.
  intros Hown. simpl.
  destruct (lastPosition_some k (mergeHeaders fetched s) 0) as [p Hp].
  { apply mergeHeaders_has. eapply own_some_in_keys; exact Hown. }
  exists p. split; [exact Hp|].
  rewrite own_assignIndex, Hown, Hp. reflexivity.
Qed.

Lemma map_VString_inj (a b : list string) :
  map VString a = map VString b -> a = b.
Proof.
  revert b. induction a as [|x a IH]; intros [|y b]; simpl;
    try discriminate; try reflexivity.
  intros [= -> E]. f_equal. apply IH; exact E.
Qed.

(** C1.  Header binding is additive and index-stable.  Binding takes the
    fetched header (["__ID"] when there is none), appends the schema
    fields it lacks, in schema order, after it, so that every position of
    the fetched header keeps its entry; gives every schema field the
    index of a position of the merged header that holds its name; and
    writes the merged header back.  When a second schema is then bound
    against the header the first binding wrote, every field the two
    schemas share keeps the index the first binding gave it. *)
Theorem header_binding_additive
        (fetched : option (list string)) (S1 S2 : Schema)
        (hs1 hs2 : list string) (upd1 upd2 : outcome unit) :
  let H := match fetched with Some row => row | None => ["__ID"] end in
  let b1 := addHeaders S1 hs1 (Returned fetched) upd1 in
  let H1 := boundHeaders b1 in
  H1 = H ++ filter (fun k => negb (has H k)) (keys S1)
  /\ (forall i, i < List.length H -> nth_error H1 i = nth_error H i)
  /\ (forall k f, own S1 k = Some f ->
      exists i,
        own (boundSchema b1) k = Some (mkField (type f) (required f) (Some i))
        /\ nth_error H1 i = Some k)
  /\ issued b1 = [ValuesUpdate A1 RAW (map VString H1)]
  /\ (forall written,
      issued b1 = [ValuesUpdate A1 RAW (map VString written)] ->
      let b2 := addHeaders S2 hs2 (Returned (Some written)) upd2 in
      forall k f1 f2,
        own (boundSchema b1) k = Some f1 ->
        own (boundSchema b2) k = Some f2 ->
        index f2 = index f1).
Proof.
  intros H b1 H1.
  assert (EH1 : H1 = mergeHeaders fetched S1) by reflexivity.
  split; [rewrite EH1; apply mergeHeaders_filter|].
  split.
  { intros i Hi. rewrite EH1, mergeHeaders_filter. cbv zeta. fold H.
    apply nth_error_app1. exact Hi. }
  split.
  { intros k f Hown.
    destruct (addHeaders_index S1 hs1 fetched upd1 k f Hown) as (p & Hp & Hb).
    exists p. split; [exact Hb|].
    destruct (lastPosition_sound _ _ _ _ Hp) as (_ & Hnth & _).
    rewrite Nat.sub_0_r in Hnth. rewrite EH1. exact Hnth. }
  split; [reflexivity|].
  intros written Hw b2 k f1 f2 Hf1 Hf2.
  assert (Ew : written = H1).
  { simpl in Hw. injection Hw as Hw.
    symmetry. apply map_VString_inj. exact Hw. }
  subst written.
  unfold b1 in Hf1. simpl in Hf1. rewrite own_assignIndex in Hf1.
  destruct (own S1 k) as [g1|] eqn:E1; [|discriminate].
  destruct (lastPosition_some k (mergeHeaders fetched S1) 0) as [p Hp].
  { apply mergeHeaders_has. eapply own_some_in_keys; exact E1. }
  rewrite Hp in Hf1. injection Hf1 as <-.
  unfold b2 in Hf2. simpl in Hf2. rewrite own_assignIndex in Hf2.
  destruct (own S2 k) as [g2|] eqn:E2; [|discriminate].
  rewrite mergeHeaders_filter in Hf2. cbv zeta in Hf2.
  rewrite lastPosition_app in Hf2.
  - rewrite EH1, Hp in Hf2. injection Hf2 as <-. reflexivity.
  - apply has_false. intros Hin. apply filter_In in Hin.
    destruct Hin as [_ Hneg].
    assert (Hhas : has H1 k = true).
    { rewrite EH1. apply mergeHeaders_has. eapply own_some_in_keys; exact E1. }
    rewrite Hhas in Hneg. discriminate.
Qed.

Lemma header_binding_additive_witness :
  let b1 := addHeaders exampleSchema [] (Returned (Some ["__ID"; "name"])) (Returned tt) in
  let b2 := addHeaders exampleWider [] (Returned (Some ["__ID"; "name"; "age"])) (Returned tt) in
  (1 < List.length ["__ID"; "name"]
   /\ nth_error (boundHeaders b1) 1 = nth_error ["__ID"; "name"] 1)
  /\ (own exampleSchema "age" = Some (mkField TNumber (Some true) None)
      /\ exists i, own (boundSchema b1) "age" = Some (mkField TNumber (Some true) (Some i))
                   /\ nth_error (boundHeaders b1) i = Some "age")
  /\ (issued b1 = [ValuesUpdate A1 RAW (map VString ["__ID"; "name"; "age"])]
      /\ own (boundSchema b1) "age" = Some (mkField TNumber (Some true) (Some 2))
      /\ own (boundSchema b2) "age" = Some (mkField TNumber (Some true) (Some 2))
      /\ index (mkField TNumber (Some true) (Some 2))
         = index (mkField TNumber (Some true) (Some 2))).
Proof.
  intros b1 b2.
  destruct (header_binding_additive (Some ["__ID"; "name"]) exampleSchema
              exampleWider [] [] (Returned tt) (Returned tt))
    as (_ & Hkeep & Hidx & _ & Hstable).
  assert (L : 1 < List.length ["__ID"; "name"]) by (simpl; lia).
  assert (O : own exampleSchema "age" = Some (mkField TNumber (Some true) None))
    by reflexivity.
  assert (W : issued b1 = [ValuesUpdate A1 RAW (map VString ["__ID"; "name"; "age"])])
    by reflexivity.
  assert (O1 : own (boundSchema b1) "age" = Some (mkField TNumber (Some true) (Some 2)))
    by reflexivity.
  assert (O2 : own (boundSchema b2) "age" = Some (mkField TNumber (Some true) (Some 2)))
    by reflexivity.
  split; [split; [exact L|exact (Hkeep 1 L)]|].
  split; [split; [exact O|exact (Hidx "age" _ O)]|].
  split; [exact W|]. split; [exact O1|]. split; [exact O2|].
  exact (Hstable ["__ID"; "name"; "age"] W "age" _ _ O1 O2).
Defined.

(** ** The readiness barrier *)

Lemma operations_never_rebind
      (db : GoogleDB) (uniqueID : string) (data query newData : object value)
      (getRes : outcome (option grid)) (writeRes : outcome unit) :
  existsb rebinds (fst (create db uniqueID data writeRes)) = false
  /\ existsb rebinds (fst (update db getRes query newData writeRes)) = false
  /\ existsb rebinds (fst (delete db getRes query writeRes)) = false.
Proof.
  unfold create, update, delete.
  destruct (await (isReady db)); [|repeat split..].
  destruct (sheets db).
  - split.
    + destruct (createLoop (schema db) data [VString uniqueID]); reflexivity.
    + destruct getRes as [allData|e]; [|split; reflexivity].
      destruct (locate (schema db) allData query) as [[i row]|e|];
        [|split; reflexivity..].
      split; [|reflexivity].
      destruct (patchLoop (schema db) newData (map VString row)); reflexivity.
  - split; [|split; reflexivity].
    destruct (createLoop (schema db) data [VString uniqueID]); reflexivity.
Qed.

(** C8.  Whatever the ends of authentication, of the header fetch and of
    the header write, the executor calls [resolve] exactly once and
    [reject] never: with "success" when all three returned, with "reject"
    otherwise.  The barrier of the constructed instance is therefore
    fulfilled, awaiting it returns instead of throwing, no later
    settlement changes it, and no operation issues the header write of
    the binding again. *)
Theorem readiness_barrier_resolves_once
        (s : Schema) (authRes : outcome unit)
        (getRes : outcome (option (list string))) (updateRes : outcome unit) :
  let st := executor s authRes getRes updateRes in
  let db := snd (construct s authRes getRes updateRes) in
  let verdict :=
    match authRes, getRes, updateRes with
    | Returned _, Returned _, Returned _ => "success"
    | _, _, _ => "reject"
    end in
  calls st = [Resolve verdict]
  /\ isReady db = Fulfilled verdict
  /\ await (isReady db) = Ok verdict
  /\ (forall c, settle (isReady db) c = isReady db)
  /\ (forall uniqueID data query newData fetched writeRes,
      existsb rebinds (fst (create db uniqueID data writeRes)) = false
      /\ existsb rebinds (fst (update db fetched query newData writeRes)) = false
      /\ existsb rebinds (fst (delete db fetched query writeRes)) = false).
Proof.
  intros st db verdict.
  split; [|split; [|split; [|split]]].
  - destruct authRes, getRes, updateRes; reflexivity.
  - destruct authRes, getRes, updateRes; reflexivity.
  - destruct authRes, getRes, updateRes; reflexivity.
  - destruct authRes, getRes, updateRes; reflexivity.
  - intros. apply operations_never_rebind.
Qed.

(** ** create *)

Lemma createLoop_required (data : object value) (key : string) (f : SchemaField)
      (fields : Schema) (newValues : list value) :
  In (key, f) fields -> required f = Some true -> get data key = VUndefined ->
  exists key' f',
    In (key', f') fields /\ required f' = Some true
    /\ get data key' = VUndefined
    /\ createLoop fields data newValues
       = Throw (Error (key' ++ " field is required!")%string).
Proof.
  intros Hin Hreq Habs. revert newValues.
  induction fields as [|[k g] fields IH]; intros newValues; [destruct Hin|].
  simpl.
  destruct (truthy (required g) && isUndefined (get data k)) eqn:E.
  - apply andb_true_iff in E. destruct E as [Et Eu].
    exists k, g. split; [left; reflexivity|]. split.
    + destruct (required g) as [[|]|]; simpl in Et; congruence.
    + split; [|reflexivity].
      destruct (get data k); simpl in Eu; congruence.
  - destruct Hin as [Heq|Hin].
    + injection Heq as -> ->. rewrite Hreq, Habs in E. discriminate.
    + destruct (IH Hin (storeAt newValues (index g) (get data k)))
        as (k' & f' & Hin' & Hr' & Ha' & Hrun).
      exists k', f'. split; [right; exact Hin'|]. auto.
Qed.

(** C4.  When a schema field with [required = true] is absent from the
    record, [create] issues no request to the transport and throws the
    error naming a required field that is absent ("<field> field is
    required!"). *)
Theorem create_required_enforced
        (db : GoogleDB) (uniqueID : string) (data : object value)
        (appendRes : outcome unit) (v key : string) (f : SchemaField) :
  isReady db = Fulfilled v ->
  In (key, f) (schema db) -> required f = Some true ->
  get data key = VUndefined ->
  exists key' f',
    In (key', f') (schema db) /\ required f' = Some true
    /\ get data key' = VUndefined
    /\ create db uniqueID data appendRes
       = ([], Throw (Error (key' ++ " field is required!")%string)).
Proof.
  intros Hready Hin Hreq Habs.
  destruct (createLoop_required data key f (schema db) [VString uniqueID]
              Hin Hreq Habs) as (k' & f' & Hin' & Hr' & Ha' & Hrun).
  exists k', f'. repeat (split; [assumption|]).
  unfold create. rewrite Hready. simpl. rewrite Hrun. reflexivity.
Qed.

Lemma create_required_enforced_witness :
  let f := mkField TNumber (Some true) (Some 2) in
  let data := [("name", VString "Ann")] in
  (isReady exampleDB = Fulfilled "success"
   /\ In ("age", f) (schema exampleDB) /\ required f = Some true
   /\ get data "age" = VUndefined)
  /\ exists key' f',
      In (key', f') (schema exampleDB) /\ required f' = Some true
      /\ get data key' = VUndefined
      /\ create exampleDB "id-1" data (Returned tt)
         = ([], Throw (Error (key' ++ " field is required!")%string)).
Proof.
  intros f data.
  assert (H1 : isReady exampleDB = Fulfilled "success") by reflexivity.
  assert (H2 : In ("age", f) (schema exampleDB)) by (right; left; reflexivity).
  assert (H3 : required f = Some true) by reflexivity.
  assert (H4 : get data "age" = VUndefined) by reflexivity.
  split; [repeat split; assumption|].
  exact (create_required_enforced exampleDB "id-1" data (Returned tt)
           "success" "age" f H1 H2 H3 H4).
Defined.

(** ** Row matching and the locate scan *)

(** The query loop ends with a value of [filtered], or with the reading
    of [index] off an undefined schema entry. *)
Lemma filtered_cases (s : Schema) (row : list string) (query : object value) :
  (exists b, filtered s row query = Ok b)
  \/ filtered s row query = Throw (readOfUndefined "index").
Proof.
  induction query as [|[key expected] query IH]; cbn [filtered].
  - left. eauto.
  - destruct (String.eqb key "__ID").
    + destruct (strictNotEqual (nth_error row 0) expected); [left; eauto|exact IH].
    + unfold schemaIndex. destruct (own s key) as [f|].
      * destruct (strictNotEqual (cellAt row (index f)) expected); [left; eauto|exact IH].
      * destruct (inherited key); [|right; reflexivity].
        destruct (strictNotEqual (cellAt row None) expected); [left; eauto|exact IH].
Qed.

(** What the scan returns is the first row it leaves unfiltered. *)
Lemma scan_first (s : Schema) (query : object value) (rows : grid) (i0 i : nat)
      (row : list string) :
  scan s rows query i0 = Ok (Some (i, row)) ->
  i0 <= i
  /\ nth_error rows (i - i0) = Some row
  /\ filtered s row query = Ok false
  /\ forall j r, j < i - i0 -> nth_error rows j = Some r ->
                 filtered s r query = Ok true.
Proof.
  revert i0. induction rows as [|r0 rows IH]; intros i0; simpl; [discriminate|].
  destruct (filtered s r0 query) as [[|]| |] eqn:E; try discriminate.
  - intros H. destruct (IH (S i0) H) as (Hle & Hnth & Hf & Hbefore).
    split; [lia|]. split.
    + replace (i - i0) with (S (i - S i0)) by lia. exact Hnth.
    + split; [exact Hf|]. intros j r Hj Hr. destruct j as [|j].
      * simpl in Hr. injection Hr as <-. exact E.
      * simpl in Hr. apply (Hbefore j r); [lia|exact Hr].
  - intros [= <- <-]. rewrite Nat.sub_diag. split; [lia|].
    split; [reflexivity|]. split; [exact E|]. intros j r Hj. lia.
Qed.

Lemma locate_first (s : Schema) (allData : option grid) (query : object value)
      (i : nat) (row : list string) :
  locate s allData query = Ok (i, row) ->
  exists d, allData = Some d
    /\ 1 <= i /\ nth_error d i = Some row
    /\ filtered s row query = Ok false
    /\ forall j r, 1 <= j < i -> nth_error d j = Some r ->
                   filtered s r query = Ok true.
Proof.
  unfold locate. destruct allData as [d|]; [|discriminate].
  destruct (scan s (tl d) query 1) as [[[i' row']|]| |] eqn:E; try discriminate.
  intros [= -> ->]. exists d. split; [reflexivity|].
  destruct (scan_first _ _ _ _ _ _ E) as (Hle & Hnth & Hf & Hbefore).
  split; [exact Hle|].
  assert (Htl : forall n, nth_error (tl d) n = nth_error d (S n))
    by (intros n; destruct d; [destruct n|]; reflexivity).
  split; [rewrite Htl in Hnth; replace (S (i - 1)) with i in Hnth by lia; exact Hnth|].
  split; [exact Hf|].
  intros j r Hj Hr. apply (Hbefore (j - 1) r); [lia|].
  rewrite Htl. replace (S (j - 1)) with j by lia. exact Hr.
Qed.

Lemma locate_never_suspended (s : Schema) (allData : option grid)
      (query : object value) :
  locate s allData query <> Suspended.
Proof.
  unfold locate. destruct allData as [d|]; [|discriminate].
  assert (H : forall rows i, scan s rows query i <> Suspended).
  { induction rows as [|r rows IH]; intros i; simpl; [discriminate|].
    destruct (filtered_cases s r query) as [[[|] E]|E]; rewrite E.
    - apply IH.
    - discriminate.
    - discriminate. }
  specialize (H (tl d) 1).
  destruct (scan s (tl d) query 1) as [[found|]| |]; congruence.
Qed.

(** ** update *)

Lemma typeNameEqb_eq (a b : typeName) : typeNameEqb a b = true <-> a = b.
Proof. destruct a, b; simpl; split; congruence. Qed.

Lemma isUndefined_false (v : value) : isUndefined v = false <-> v <> VUndefined.
Proof. destruct v; simpl; split; congruence. Qed.

Lemma atIndex_true (f : SchemaField) (p : nat) :
  atIndex f p = true <-> index f = Some p.
Proof.
  unfold atIndex. destruct (index f) as [n|]; [|split; discriminate].
  destruct (Nat.eqb_spec n p); split; congruence.
Qed.

Lemma patchLoop_elem (newData : object value) (p : nat) (fields : Schema)
      (a a' : list value) :
  patchLoop fields newData a = Ok a' ->
  elem a' p = match lastWrite fields newData p with
              | Some v => v
              | None => elem a p
              end.
Proof.
  revert a. induction fields as [|[k f] fields IH]; intros a; simpl.
  - intros [= <-]. reflexivity.
  - destruct (isUndefined (get newData k)) eqn:Eu; simpl.
    + intros H. rewrite (IH _ H).
      destruct (lastWrite fields newData p); reflexivity.
    + destruct (typeNameEqb (typeTag (type f)) (typeof (get newData k)));
        simpl; [|discriminate].
      intros H. rewrite (IH _ H).
      destruct (lastWrite fields newData p); [reflexivity|].
      rewrite elem_storeAt. unfold atIndex.
      destruct (index f) as [n|]; [|reflexivity].
      rewrite (Nat.eqb_sym p n). destruct (Nat.eqb n p); reflexivity.
Qed.

Lemma lastWrite_in (newData : object value) (p : nat) (fields : Schema) (v : value) :
  lastWrite fields newData p = Some v ->
  exists k f, In (k, f) fields /\ index f = Some p
              /\ get newData k <> VUndefined /\ v = get newData k.
Proof.
  induction fields as [|[k f] fields IH]; simpl; [discriminate|].
  destruct (lastWrite fields newData p) as [w|].
  - intros [= <-]. destruct (IH eq_refl) as (k' & f' & Hin & H).
    exists k', f'. split; [right; exact Hin|exact H].
  - destruct (isUndefined (get newData k)) eqn:Eu; simpl; [discriminate|].
    destruct (atIndex f p) eqn:Ea; [|discriminate].
    intros [= <-]. exists k, f. split; [left; reflexivity|].
    split; [apply atIndex_true; exact Ea|].
    split; [apply isUndefined_false; exact Eu|reflexivity].
Qed.

Lemma lastWrite_present (newData : object value) (p : nat) (fields : Schema)
      (k : string) (f : SchemaField) :
  In (k, f) fields -> index f = Some p -> get newData k <> VUndefined ->
  exists v, lastWrite fields newData p = Some v.
Proof.
  intros Hin Hidx Hpres.
  induction fields as [|[k0 f0] fields IH]; [destruct Hin|]. simpl.
  destruct (lastWrite fields newData p) as [w|]; [eauto|].
  destruct Hin as [[= -> ->]|Hin].
  - apply isUndefined_false in Hpres. apply atIndex_true in Hidx.
    rewrite Hpres, Hidx. simpl. eauto.
  - destruct (IH Hin) as [v Hv]. discriminate.
Qed.

Lemma patchLoop_typed (newData : object value) (fields : Schema) (a : list value) :
  (forall k f, In (k, f) fields -> get newData k <> VUndefined ->
               typeof (get newData k) = typeTag (type f)) ->
  exists a', patchLoop fields newData a = Ok a'.
Proof.
  revert a. induction fields as [|[k f] fields IH]; intros a Hty; simpl; [eauto|].
  assert (Hrest : forall k' f', In (k', f') fields -> get newData k' <> VUndefined ->
                                typeof (get newData k') = typeTag (type f'))
    by (intros k' f' Hin; apply Hty; right; exact Hin).
  destruct (isUndefined (get newData k)) eqn:Eu; simpl; [apply IH; exact Hrest|].
  rewrite (Hty k f (or_introl eq_refl)) by (apply isUndefined_false; exact Eu).
  replace (typeNameEqb (typeTag (type f)) (typeTag (type f))) with true
    by (symmetry; apply typeNameEqb_eq; reflexivity).
  simpl. apply IH; exact Hrest.
Qed.

Lemma patchLoop_mismatch (newData : object value) (key : string) (f : SchemaField)
      (fields : Schema) (a : list value) :
  In (key, f) fields -> get newData key <> VUndefined ->
  typeof (get newData key) <> typeTag (type f) ->
  exists key' f',
    In (key', f') fields /\ get newData key' <> VUndefined
    /\ typeof (get newData key') <> typeTag (type f')
    /\ patchLoop fields newData a
       = Throw (Error (key' ++ " field should be of type " ++ typeText (type f'))%string).
Proof.
  intros Hin Hpres Hbad. revert a.
  induction fields as [|[k g] fields IH]; intros a; [destruct Hin|]. simpl.
  destruct (isUndefined (get newData k)) eqn:Eu; simpl.
  - destruct Hin as [[= -> ->]|Hin].
    + apply isUndefined_false in Hpres. congruence.
    + destruct (IH Hin a) as (k' & f' & Hin' & H).
      exists k', f'. split; [right; exact Hin'|exact H].
  - destruct (typeNameEqb (typeTag (type g)) (typeof (get newData k))) eqn:Et; simpl.
    + destruct Hin as [[= -> ->]|Hin].
      * apply typeNameEqb_eq in Et. congruence.
      * destruct (IH Hin (storeAt a (index g) (get newData k)))
          as (k' & f' & Hin' & H).
        exists k', f'. split; [right; exact Hin'|exact H].
    + exists k, g. split; [left; reflexivity|].
      split; [apply isUndefined_false; exact Eu|].
      split; [|reflexivity].
      intros Heq. rewrite Heq in Et.
      assert (typeNameEqb (typeTag (type g)) (typeTag (type g)) = true)
        by (apply typeNameEqb_eq; reflexivity).
      congruence.
Qed.

(** C5.  Identity and frame preservation of [update].  Let the scan have
    located row [i] of the fetched table, and let every schema field be
    bound to a column index of at least 1.  Then every write [update]
    issues goes to sheet row [i + 1], the row the located one was fetched
    from, and carries a row in which cell 0 is the fetched identity cell,
    every position no present patch field is bound to holds the fetched
    cell, and the position of a present patch field holds the patch
    value.  The keys of the patch that are not schema fields, "__ID"
    among them, play no part.  The write is issued whenever the patch
    passes validation. *)
Theorem update_preserves_identity_and_frame
        (db : GoogleDB) (allData : option grid) (query newData : object value)
        (updateRes : outcome unit) (v : string) (i : nat) (row : list string) :
  isReady db = Fulfilled v ->
  sheets db = true ->
  locate (schema db) allData query = Ok (i, row) ->
  (forall k f, In (k, f) (schema db) -> exists n, index f = Some n /\ 1 <= n) ->
  (exists d, allData = Some d /\ nth_error d i = Some row)
  /\ (forall req,
      In req (fst (update db (Returned allData) query newData updateRes)) ->
      exists rowToUpdate,
        req = ValuesUpdate (RowNumber (i + 1)) USER_ENTERED rowToUpdate
        /\ elem rowToUpdate 0 = elem (map VString row) 0
        /\ (forall p,
            (forall k f, In (k, f) (schema db) -> index f = Some p ->
                         get newData k = VUndefined) ->
            elem rowToUpdate p = elem (map VString row) p)
        /\ (forall p k f,
            In (k, f) (schema db) -> index f = Some p ->
            get newData k <> VUndefined ->
            (forall k' f', In (k', f') (schema db) -> index f' = Some p ->
                           get newData k' <> VUndefined -> k' = k) ->
            elem rowToUpdate p = get newData k))
  /\ ((forall k f, In (k, f) (schema db) -> get newData k <> VUndefined ->
                   typeof (get newData k) = typeTag (type f)) ->
      exists rowToUpdate,
        fst (update db (Returned allData) query newData updateRes)
        = [ValuesUpdate (RowNumber (i + 1)) USER_ENTERED rowToUpdate]).
Proof.
  intros Hready Hsheets Hloc Hidx.
  assert (Hrun : update db (Returned allData) query newData updateRes
                 = match patchLoop (schema db) newData (map VString row) with
                   | Ok rowToUpdate =>
                       ([ValuesUpdate (RowNumber (i + 1)) USER_ENTERED rowToUpdate],
                        match updateRes with
                        | Returned _ => Ok (readBack (schema db) rowToUpdate newData)
                        | Failed e => Throw e
                        end)
                   | Throw e => ([], Throw e)
                   | Suspended => ([], Suspended)
                   end)
    by (unfold update; rewrite Hready, Hsheets; simpl; rewrite Hloc; reflexivity).
  rewrite Hrun. split.
  { destruct (locate_first _ _ _ _ _ Hloc) as (d & Hd & _ & Hnth & _). eauto. }
  split.
  - destruct (patchLoop (schema db) newData (map VString row))
      as [rowToUpdate|e|] eqn:Hloop; simpl;
      [|intros req Hin; destruct Hin|intros req Hin; destruct Hin].
    intros req [<-|[]]. exists rowToUpdate. split; [reflexivity|].
    assert (Hframe : forall p,
               (forall k f, In (k, f) (schema db) -> index f = Some p ->
                            get newData k = VUndefined) ->
               elem rowToUpdate p = elem (map VString row) p).
    { intros p Hnone. rewrite (patchLoop_elem newData p _ _ _ Hloop).
      destruct (lastWrite (schema db) newData p) as [w|] eqn:E; [|reflexivity].
      destruct (lastWrite_in _ _ _ _ E) as (k & f & Hin & Hp & Hpres & _).
      elim Hpres. apply (Hnone k f); assumption. }
    split.
    { apply Hframe. intros k f Hin H0.
      destruct (Hidx k f Hin) as (n & Hn & Hge). rewrite Hn in H0.
      injection H0 as ->. lia. }
    split; [exact Hframe|].
    intros p k f Hin Hp Hpres Huniq.
    rewrite (patchLoop_elem newData p _ _ _ Hloop).
    destruct (lastWrite_present newData p (schema db) k f Hin Hp Hpres) as [w Hw].
    rewrite Hw.
    destruct (lastWrite_in _ _ _ _ Hw) as (k' & f' & Hin' & Hp' & Hpres' & ->).
    rewrite (Huniq k' f' Hin' Hp' Hpres'). reflexivity.
  - intros Hty.
    destruct (patchLoop_typed newData (schema db) (map VString row) Hty)
      as [rowToUpdate Hloop].
    rewrite Hloop. exists rowToUpdate. reflexivity.
Qed.

Lemma exampleDB_indices (k : string) (f : SchemaField) :
  In (k, f) (schema exampleDB) -> exists n, index f = Some n /\ 1 <= n.
Proof.
  intros [H|[H|[]]]; injection H as <- <-; eexists; (split; [reflexivity|]).
  - apply le_n.
  - apply le_S, le_n.
Defined.

Lemma update_preserves_identity_and_frame_witness :
  let query := [("__ID", VString "id-2")] in
  let newData := [("__ID", VString "forged"); ("age", VNumber (Finite false 42 0))] in
  let written := [VString "id-2"; VString "Bob"; VNumber (Finite false 42 0)] in
  (isReady exampleDB = Fulfilled "success"
   /\ sheets exampleDB = true
   /\ locate (schema exampleDB) (Some exampleTable) query = Ok (2, ["id-2"; "Bob"; "41"])
   /\ In (ValuesUpdate (RowNumber 3) USER_ENTERED written)
         (fst (update exampleDB (Returned (Some exampleTable)) query newData (Returned tt))))
  /\ exists rowToUpdate,
      ValuesUpdate (RowNumber 3) USER_ENTERED written
      = ValuesUpdate (RowNumber (2 + 1)) USER_ENTERED rowToUpdate
      /\ elem rowToUpdate 0 = VString "id-2".
Proof.
  intros query newData written.
  assert (H1 : isReady exampleDB = Fulfilled "success") by reflexivity.
  assert (H2 : sheets exampleDB = true) by reflexivity.
  assert (H3 : locate (schema exampleDB) (Some exampleTable) query
               = Ok (2, ["id-2"; "Bob"; "41"])) by reflexivity.
  assert (H4 : In (ValuesUpdate (RowNumber 3) USER_ENTERED written)
                  (fst (update exampleDB (Returned (Some exampleTable)) query
                               newData (Returned tt))))
    by (left; reflexivity).
  split; [repeat split; assumption|].
  destruct (update_preserves_identity_and_frame exampleDB (Some exampleTable)
              query newData (Returned tt) "success" 2 ["id-2"; "Bob"; "41"]
              H1 H2 H3 exampleDB_indices)
    as (_ & Hwrites & _).
  destruct (Hwrites _ H4) as (rowToUpdate & Hreq & Hid & _).
  exists rowToUpdate. split; [exact Hreq|exact Hid].
Defined.

Lemma prefix_append (sub t : string) : String.prefix sub (sub ++ t)%string = true.
Proof.
  induction sub as [|c sub IH]; simpl.
  - destruct t; reflexivity.
  - destruct (Ascii.ascii_dec c c); [exact IH|congruence].
Qed.

Lemma contains_append (sub k t : string) :
  contains sub (k ++ sub ++ t)%string = true.
Proof.
  induction k as [|c k IH].
  - change ("" ++ sub ++ t)%string with (sub ++ t)%string.
    pose proof (prefix_append sub t) as H.
    destruct (sub ++ t)%string; cbn [contains]; rewrite H; reflexivity.
  - change (String c k ++ sub ++ t)%string with (String c (k ++ sub ++ t)).
    cbn [contains]. rewrite IH. apply orb_true_r.
Qed.

(** C6, as the code has it.  When a schema field present in the patch
    has a runtime type other than the declared one, [update] issues no
    write and fails; when moreover the fetch returned and the scan
    located a row, the failure is the type-mismatch error of a present,
    wrongly typed field.  When every present patch field has the declared
    type, the validation loop throws nothing: once a row is located the
    write is issued and [update] ends as the transport's write ends. *)
Theorem update_type_validation
        (db : GoogleDB) (getRes : outcome (option grid))
        (query newData : object value) (updateRes : outcome unit) (v : string) :
  isReady db = Fulfilled v ->
  ((exists key f, In (key, f) (schema db) /\ get newData key <> VUndefined
                  /\ typeof (get newData key) <> typeTag (type f)) ->
   fst (update db getRes query newData updateRes) = []
   /\ (exists e, snd (update db getRes query newData updateRes) = Throw e)
   /\ (forall allData i row,
       sheets db = true -> getRes = Returned allData ->
       locate (schema db) allData query = Ok (i, row) ->
       exists key' f',
         In (key', f') (schema db) /\ get newData key' <> VUndefined
         /\ typeof (get newData key') <> typeTag (type f')
         /\ snd (update db getRes query newData updateRes)
            = Throw (Error (key' ++ " field should be of type "
                                 ++ typeText (type f'))%string)))
  /\ ((forall k f, In (k, f) (schema db) -> get newData k <> VUndefined ->
                   typeof (get newData k) = typeTag (type f)) ->
      (forall rowToUpdate, exists row',
          patchLoop (schema db) newData rowToUpdate = Ok row')
      /\ (forall allData i row,
          sheets db = true -> getRes = Returned allData ->
          locate (schema db) allData query = Ok (i, row) ->
          exists row',
            update db getRes query newData updateRes
            = ([ValuesUpdate (RowNumber (i + 1)) USER_ENTERED row'],
               match updateRes with
               | Returned _ => Ok (readBack (schema db) row' newData)
               | Failed e => Throw e
               end))).
Proof.
  intros Hready. split.
  - intros (key & f & Hin & Hpres & Hbad).
    assert (Hthrow : forall a, exists key' f',
               In (key', f') (schema db) /\ get newData key' <> VUndefined
               /\ typeof (get newData key') <> typeTag (type f')
               /\ patchLoop (schema db) newData a
                  = Throw (Error (key' ++ " field should be of type "
                                       ++ typeText (type f'))%string))
      by (intros a; apply (patchLoop_mismatch newData key f); assumption).
    unfold update. rewrite Hready. simpl.
    destruct (sheets db).
    2:{ split; [reflexivity|]. split; [simpl; eauto|]. discriminate. }
    destruct getRes as [allData|e].
    2:{ split; [reflexivity|]. split; [simpl; eauto|]. discriminate. }
    pose proof (locate_never_suspended (schema db) allData query) as Hns.
    destruct (locate (schema db) allData query) as [[i row]|e|] eqn:Hloc;
      [| |congruence].
    2:{ split; [reflexivity|]. split; [simpl; eauto|].
        intros allData' i' row' _ Hg Hl. injection Hg as <-.
        rewrite Hloc in Hl. discriminate. }
    destruct (Hthrow (map VString row)) as (k' & f' & Hin' & Hp' & Hb' & Hrun).
    rewrite Hrun. simpl. split; [reflexivity|]. split; [eauto|].
    intros allData' i' row' _ _ _.
    exists k', f'. auto.
  - intros Hty. split; [intros a; apply patchLoop_typed; exact Hty|].
    intros allData i row Hsheets -> Hloc.
    destruct (patchLoop_typed newData (schema db) (map VString row) Hty)
      as [row' Hrun].
    exists row'. unfold update. rewrite Hready, Hsheets. simpl.
    rewrite Hloc, Hrun. reflexivity.
Qed.

Lemma update_type_validation_witness :
  let query := [("__ID", VString "id-1")] in
  let bad := [("age", VString "31")] in
  let good := [("age", VNumber (Finite false 31 0))] in
  let f := mkField TNumber (Some true) (Some 2) in
  isReady exampleDB = Fulfilled "success"
  /\ ((In ("age", f) (schema exampleDB) /\ get bad "age" <> VUndefined
       /\ typeof (get bad "age") <> typeTag (type f))
      /\ fst (update exampleDB (Returned (Some exampleTable)) query bad (Returned tt)) = []
      /\ exists e,
          snd (update exampleDB (Returned (Some exampleTable)) query bad (Returned tt))
          = Throw e)
  /\ ((forall k g, In (k, g) (schema exampleDB) -> get good k <> VUndefined ->
                   typeof (get good k) = typeTag (type g))
      /\ exists row', patchLoop (schema exampleDB) good [] = Ok row').
Proof.
  intros query bad good f.
  assert (R : isReady exampleDB = Fulfilled "success") by reflexivity.
  assert (B : In ("age", f) (schema exampleDB) /\ get bad "age" <> VUndefined
              /\ typeof (get bad "age") <> typeTag (type f)).
  { split; [right; left; reflexivity|]. split; discriminate. }
  assert (G : forall k g, In (k, g) (schema exampleDB) -> get good k <> VUndefined ->
                          typeof (get good k) = typeTag (type g)).
  { intros k g [H|[H|[]]] Hp; injection H as <- <-.
    - elim Hp. reflexivity.
    - reflexivity. }
  destruct (update_type_validation exampleDB (Returned (Some exampleTable))
              query bad (Returned tt) "success" R) as [Hbad _].
  destruct (update_type_validation exampleDB (Returned (Some exampleTable))
              query good (Returned tt) "success" R) as [_ Hgood].
  split; [exact R|]. split.
  - split; [exact B|].
    destruct (Hbad (ex_intro _ "age" (ex_intro _ f B))) as (Hnone & Hfail & _).
    split; [exact Hnone|exact Hfail].
  - split; [exact G|]. destruct (Hgood G) as [Hloop _]. exact (Hloop []).
Defined.

(** C6 as stated fails: a patch with a wrongly typed field, sent with a
    query no row satisfies, ends in the not-found error, which is no
    type-mismatch error. *)
Lemma update_not_found_precedes_validation :
  let query := [("__ID", VString "id-9")] in
  let newData := [("age", VString "thirty")] in
  let f := mkField TNumber (Some true) (Some 2) in
  In ("age", f) (schema exampleDB)
  /\ get newData "age" <> VUndefined
  /\ typeof (get newData "age") <> typeTag (type f)
  /\ update exampleDB (Returned (Some exampleTable)) query newData (Returned tt)
     = ([], Throw (Error "Cannot find row with this query!"))
  /\ ~ (exists key t,
         snd (update exampleDB (Returned (Some exampleTable)) query newData (Returned tt))
         = Throw (Error (key ++ " field should be of type " ++ t)%string)).
Proof.
  intros query newData f.
  split; [right; left; reflexivity|].
  split; [discriminate|]. split; [discriminate|]. split; [reflexivity|].
  intros (key & t & H).
  assert (E : "Cannot find row with this query!"
              = (key ++ " field should be of type " ++ t)%string)
    by (injection H as H; exact H).
  pose proof (contains_append " field should be of type " key t) as C.
  rewrite <- E in C. discriminate C.
Qed.

(** ** Queries that name an unknown field *)

Lemma filtered_app (s : Schema) (row : list string) (pre q : object value) :
  filtered s row (pre ++ q) =
  match filtered s row pre with
  | Ok false => filtered s row q
  | r => r
  end.
Proof.
  induction pre as [|[key expected] pre IH]; cbn [filtered app]; [reflexivity|].
  destruct (String.eqb key "__ID").
  - destruct (strictNotEqual (nth_error row 0) expected); [reflexivity|exact IH].
  - destruct (schemaIndex s key) as [i|e|]; try reflexivity.
    destruct (strictNotEqual (cellAt row i) expected); [reflexivity|exact IH].
Qed.

Lemma filtered_unknown (s : Schema) (row : list string) (k : string)
      (expected : value) (post : object value) :
  k <> "__ID" -> own s k = None -> inherited k = false ->
  filtered s row ((k, expected) :: post) = Throw (readOfUndefined "index").
Proof.
  intros Hid Hown Hinh. cbn [filtered].
  apply String.eqb_neq in Hid. rewrite Hid.
  unfold schemaIndex. rewrite Hown, Hinh. reflexivity.
Qed.

(** One turn of a loop over the rows whose head the query loop filters
    out: the loop goes on with the rows that follow. *)
Ltac skip_filtered H IH :=
  simpl; rewrite (H _ (or_introl eq_refl)); apply IH;
  intros ? ?; apply H; right; assumption.

(** One turn of a loop some later row of which makes the query loop
    throw: the head is filtered out, or throws itself. *)
Ltac step_to_throw cases IH Hin :=
  simpl;
  match goal with
  | |- context [filtered ?s ?r ?q] =>
      let E := fresh "E" in
      destruct (cases r) as [E|E]; rewrite E; [|reflexivity];
      apply IH; destruct Hin as [->|Hin]; [congruence|eauto]
  end.

Section Loops.
Variables (s : Schema) (query : object value).

(** Rows left out by the query loop are passed over by every scan. *)
Lemma convertRows_filtered (rows : grid) (acc : list (object value)) :
  (forall row, In row rows -> filtered s row query = Ok true) ->
  convertRows s rows query acc = Ok acc.
Proof.
  revert acc. induction rows as [|r rows IH]; intros acc H; [reflexivity|].
  skip_filtered H IH.
Qed.

Lemma convertRowsOne_filtered (rows : grid) :
  (forall row, In row rows -> filtered s row query = Ok true) ->
  convertRowsOne s rows query = Ok None.
Proof.
  induction rows as [|r rows IH]; intros H; [reflexivity|].
  skip_filtered H IH.
Qed.

Lemma scan_filtered (rows : grid) (i : nat) :
  (forall row, In row rows -> filtered s row query = Ok true) ->
  scan s rows query i = Ok None.
Proof.
  revert i. induction rows as [|r rows IH]; intros i H; [reflexivity|].
  skip_filtered H IH.
Qed.

(** When the query loop can only filter a row out or throw, the first
    row on which it throws ends every scan. *)
Variable e : exn.
Hypothesis filtered_or_throws :
  forall row, filtered s row query = Ok true \/ filtered s row query = Throw e.

Lemma convertRows_throws (rows : grid) (acc : list (object value)) :
  (exists row, In row rows /\ filtered s row query = Throw e) ->
  convertRows s rows query acc = Throw e.
Proof.
  revert acc. induction rows as [|r rows IH]; intros acc (row & Hin & Hrow);
    [destruct Hin|].
  step_to_throw filtered_or_throws IH Hin.
Qed.

Lemma convertRowsOne_throws (rows : grid) :
  (exists row, In row rows /\ filtered s row query = Throw e) ->
  convertRowsOne s rows query = Throw e.
Proof.
  induction rows as [|r rows IH]; intros (row & Hin & Hrow); [destruct Hin|].
  step_to_throw filtered_or_throws IH Hin.
Qed.

Lemma scan_throws (rows : grid) (i : nat) :
  (exists row, In row rows /\ filtered s row query = Throw e) ->
  scan s rows query i = Throw e.
Proof.
  revert i. induction rows as [|r rows IH]; intros i (row & Hin & Hrow);
    [destruct Hin|].
  step_to_throw filtered_or_throws IH Hin.
Qed.
End Loops.

(** C9, as the code has it.  Let the query hold, after the keys [pre], a
    key that is not "__ID", not a schema field and not a property
    inherited from [Object.prototype].  If on some data row every key of
    [pre] holds, find, findOne, update and delete all end in the
    TypeError of reading [index] off [undefined], and nothing is written.
    If on every data row some key of [pre] fails, nothing is thrown on
    that account: find returns no record, findOne returns null, update
    and delete end in the not-found error. *)
Theorem unknown_query_key
        (db : GoogleDB) (d : grid) (pre post : object value) (k : string)
        (expected : value) (newData : object value) (updateRes : outcome unit)
        (v : string) :
  isReady db = Fulfilled v ->
  sheets db = true ->
  k <> "__ID" -> own (schema db) k = None -> inherited k = false ->
  let query := pre ++ (k, expected) :: post in
  let getRes := Returned (Some d) in
  ((exists row, In row (tl d) /\ filtered (schema db) row pre = Ok false) ->
   find db getRes query = Throw (readOfUndefined "index")
   /\ findOne db getRes query = Throw (readOfUndefined "index")
   /\ update db getRes query newData updateRes
      = ([], Throw (readOfUndefined "index"))
   /\ delete db getRes query updateRes = ([], Throw (readOfUndefined "index")))
  /\ ((forall row, In row (tl d) -> filtered (schema db) row pre = Ok true) ->
      find db getRes query = Ok []
      /\ findOne db getRes query = Ok None
      /\ update db getRes query newData updateRes
         = ([], Throw (Error "Cannot find row with this query!"))
      /\ delete db getRes query updateRes
         = ([], Throw (Error "Cannot find row with this query!"))).
Proof.
  intros Hready Hsheets Hid Hown Hinh query getRes.
  assert (Hpre : forall row b, filtered (schema db) row pre = Ok b ->
             filtered (schema db) row query
             = if b then Ok true else Throw (readOfUndefined "index")).
  { intros row b Hb. unfold query. rewrite filtered_app, Hb.
    destruct b; [reflexivity|]. apply filtered_unknown; assumption. }
  assert (Hcases : forall row,
             filtered (schema db) row query = Ok true
             \/ filtered (schema db) row query = Throw (readOfUndefined "index")).
  { intros row. destruct (filtered_cases (schema db) row pre) as [[b Hb]|Ht].
    - rewrite (Hpre row b Hb). destruct b; auto.
    - right. unfold query. rewrite filtered_app, Ht. reflexivity. }
  unfold find, findOne, update, delete, getRes.
  rewrite Hready, Hsheets. cbn [await].
  unfold convertDataToJSONWithFilters, convertDataToJSONWithFiltersOne, locate.
  split.
  - intros (row & Hin & Hrow).
    assert (Hex : exists row, In row (tl d)
                   /\ filtered (schema db) row query = Throw (readOfUndefined "index"))
      by (exists row; split; [exact Hin|exact (Hpre row false Hrow)]).
    rewrite (convertRows_throws _ _ _ Hcases _ _ Hex).
    rewrite (convertRowsOne_throws _ _ _ Hcases _ Hex).
    rewrite (scan_throws _ _ _ Hcases _ _ Hex).
    repeat split.
  - intros Hall.
    assert (Hf : forall row, In row (tl d) -> filtered (schema db) row query = Ok true)
      by (intros row Hin; exact (Hpre row true (Hall row Hin))).
    rewrite (convertRows_filtered _ _ _ _ Hf).
    rewrite (convertRowsOne_filtered _ _ _ Hf).
    rewrite (scan_filtered _ _ _ _ Hf).
    repeat split.
Qed.

Lemma unknown_query_key_witness :
  let reached := [("name", VString "Bob"); ("nickname", VString "B")] in
  let unreached := [("__ID", VString "id-9"); ("nickname", VString "B")] in
  (isReady exampleDB = Fulfilled "success" /\ sheets exampleDB = true
   /\ "nickname" <> "__ID" /\ own (schema exampleDB) "nickname" = None
   /\ inherited "nickname" = false)
  /\ ((exists row, In row (tl exampleTable)
                   /\ filtered (schema exampleDB) row [("name", VString "Bob")] = Ok false)
      /\ find exampleDB (Returned (Some exampleTable)) reached
         = Throw (readOfUndefined "index"))
  /\ ((forall row, In row (tl exampleTable) ->
                   filtered (schema exampleDB) row [("__ID", VString "id-9")] = Ok true)
      /\ find exampleDB (Returned (Some exampleTable)) unreached = Ok []).
Proof.
  intros reached unreached.
  assert (H1 : isReady exampleDB = Fulfilled "success") by reflexivity.
  assert (H2 : sheets exampleDB = true) by reflexivity.
  assert (H3 : "nickname" <> "__ID") by discriminate.
  assert (H4 : own (schema exampleDB) "nickname" = None) by reflexivity.
  assert (H5 : inherited "nickname" = false) by reflexivity.
  assert (R : exists row, In row (tl exampleTable)
                /\ filtered (schema exampleDB) row [("name", VString "Bob")] = Ok false).
  { exists ["id-2"; "Bob"; "41"]. split; [right; left; reflexivity|reflexivity]. }
  assert (U : forall row, In row (tl exampleTable) ->
                filtered (schema exampleDB) row [("__ID", VString "id-9")] = Ok true).
  { intros row [<-|[<-|[]]]; reflexivity. }
  split; [repeat split; assumption|].
  split.
  - split; [exact R|].
    destruct (unknown_query_key exampleDB exampleTable [("name", VString "Bob")] []
                "nickname" (VString "B") [] (Returned tt) "success"
                H1 H2 H3 H4 H5) as [Hthrow _].
    destruct (Hthrow R) as [Hfind _]. exact Hfind.
  - split; [exact U|].
    destruct (unknown_query_key exampleDB exampleTable [("__ID", VString "id-9")] []
                "nickname" (VString "B") [] (Returned tt) "success"
                H1 H2 H3 H4 H5) as [_ Hquiet].
    destruct (Hquiet U) as [Hfind _]. exact Hfind.
Defined.

(** C9 as stated fails: a query naming a field the schema lacks need not
    throw.  Here no data row carries the identity the query asks for
    first, so the unknown key is never reached; and a key inherited from
    [Object.prototype] reads an undefined index instead of throwing. *)
Lemma unknown_key_need_not_throw :
  let query := [("__ID", VString "id-9"); ("nickname", VString "B")] in
  let getRes := Returned (Some exampleTable) in
  In "nickname" (keys query)
  /\ "nickname" <> "__ID"
  /\ own (schema exampleDB) "nickname" = None
  /\ find exampleDB getRes query = Ok []
  /\ findOne exampleDB getRes query = Ok None
  /\ update exampleDB getRes query [] (Returned tt)
     = ([], Throw (Error "Cannot find row with this query!"))
  /\ delete exampleDB getRes query (Returned tt)
     = ([], Throw (Error "Cannot find row with this query!"))
  /\ find exampleDB getRes [("toString", VString "B")] = Ok [].
Proof.
  intros query getRes.
  split; [right; left; reflexivity|].
  split; [discriminate|].
  repeat split.
Qed.

(** ** Tombstones and first matches *)

Lemma concat_empty (l : list string) :
  Forall (fun c => c = "") l -> String.concat "" l = "".
Proof.
  induction 1 as [|c l -> _ IH]; [reflexivity|].
  destruct l as [|c l]; [reflexivity|].
  change (String.concat "" (c :: l) = ""). exact IH.
Qed.

Lemma tombstone_rowJoin (row : list string) : tombstone row -> rowJoin row = "".
Proof.
  unfold tombstone, rowJoin. destruct row as [|c row]; [reflexivity|].
  simpl tl. intros H. apply (concat_empty ("" :: row)).
  constructor; [reflexivity|exact H].
Qed.

(** No query selects a tombstone for [find] and [findOne]. *)
Lemma tombstone_not_selected (s : Schema) (query : object value) (row : list string) :
  tombstone row -> selected s query row = false.
Proof.
  intros H. unfold selected. rewrite (tombstone_rowJoin row H).
  destruct (filtered s row query) as [[|]| |]; reflexivity.
Qed.

(** [find] returns the records of the selected rows, in row order. *)
Lemma convertRows_selected (s : Schema) (query : object value) (rows : grid)
      (acc out : list (object value)) :
  convertRows s rows query acc = Ok out ->
  out = acc ++ map (rowToObject s) (filter (selected s query) rows).
Proof.
  revert acc. induction rows as [|r rows IH]; intros acc; simpl.
  - intros [= <-]. rewrite app_nil_r. reflexivity.
  - unfold selected at 1.
    destruct (filtered s r query) as [[|]| |]; try discriminate; [apply IH|].
    destruct (String.eqb (rowJoin r) ""); simpl; [apply IH|].
    intros H. rewrite (IH _ H), <- app_assoc. reflexivity.
Qed.

(** [findOne] returns the record of the first selected row. *)
Lemma convertRowsOne_selected (s : Schema) (query : object value) (rows : grid)
      (r : option (object value)) :
  convertRowsOne s rows query = Ok r ->
  r = hd_error (map (rowToObject s) (filter (selected s query) rows)).
Proof.
  induction rows as [|r0 rows IH]; simpl.
  - intros [= <-]. reflexivity.
  - unfold selected at 1.
    destruct (filtered s r0 query) as [[|]| |]; try discriminate; [apply IH|].
    destruct (String.eqb (rowJoin r0) ""); simpl; [apply IH|].
    intros [= <-]. reflexivity.
Qed.

(** C2 at a failing input.  Row 1 of the fetched table is a tombstone.
    [find] and [findOne] with the empty query pass over it, but the
    locate scan of [update] and [delete], which has no tombstone test,
    selects it: both write at sheet row 2, the tombstone's. *)
Theorem locate_selects_tombstone :
  let db := exampleDB in
  let getRes := Returned (Some tableWithTombstone) in
  nth_error tableWithTombstone 1 = Some []
  /\ tombstone []
  /\ find db getRes []
     = Ok [ [("__ID", VString "id-2"); ("name", VString "Bob");
             ("age", VNumber (Finite false 41 0))];
            [("__ID", VString "id-3"); ("name", VString "Cy");
             ("age", VNumber (Finite false 7 0))] ]
  /\ findOne db getRes []
     = Ok (Some [("__ID", VString "id-2"); ("name", VString "Bob");
                 ("age", VNumber (Finite false 41 0))])
  /\ locate (schema db) (Some tableWithTombstone) [] = Ok (1, [])
  /\ fst (update db getRes [] [("name", VString "Zed")] (Returned tt))
     = [ValuesUpdate (RowNumber 2) USER_ENTERED [VUndefined; VString "Zed"]]
  /\ delete db getRes [] (Returned tt)
     = ([ValuesUpdate (RowNumber 2) USER_ENTERED []], Ok tt).
Proof.
  repeat split. constructor.
Qed.

(** C7 at a failing input.  Two live rows, at indices 2 and 3, satisfy
    the empty query, and [find] returns their records in that order;
    [findOne] returns the record of row 2, the lower one; [update] and
    [delete] act on neither, but on the tombstone at index 1 (sheet row
    2), and not on sheet row 3. *)
Theorem first_match_taken_by_tombstone :
  let db := exampleDB in
  let getRes := Returned (Some tableWithTombstone) in
  let patch := [("age", VNumber (Finite false 42 0))] in
  map (selected (schema db) []) (tl tableWithTombstone) = [false; true; true]
  /\ find db getRes []
     = Ok [rowToObject (schema db) ["id-2"; "Bob"; "41"];
           rowToObject (schema db) ["id-3"; "Cy"; "7"]]
  /\ findOne db getRes [] = Ok (Some (rowToObject (schema db) ["id-2"; "Bob"; "41"]))
  /\ fst (update db getRes [] patch (Returned tt))
     = [ValuesUpdate (RowNumber 2) USER_ENTERED
          [VUndefined; VUndefined; VNumber (Finite false 42 0)]]
  /\ fst (update db getRes [] patch (Returned tt))
     <> [ValuesUpdate (RowNumber 3) USER_ENTERED
           [VString "id-2"; VString "Bob"; VNumber (Finite false 42 0)]]
  /\ fst (delete db getRes [] (Returned tt))
     = [ValuesUpdate (RowNumber 2) USER_ENTERED []].
Proof.
  repeat split. discriminate.
Qed.

(** Away from tombstones the scans agree: in a table none of whose data
    rows the query loop both accepts and [rowJoin] blanks, the row
    [update] and [delete] locate is the first selected row, the one
    [findOne] decodes. *)
Lemma locate_is_first_selected (s : Schema) (query : object value) (d : grid)
      (i : nat) (row : list string) :
  (forall r, In r (tl d) -> filtered s r query = Ok false -> rowJoin r <> "") ->
  locate s (Some d) query = Ok (i, row) ->
  convertDataToJSONWithFiltersOne s (Some d) query = Ok (Some (rowToObject s row)).
Proof.
  unfold locate, convertDataToJSONWithFiltersOne.
  generalize 1 as i0. generalize (tl d) as rows. clear d.
  induction rows as [|r rows IH]; intros i0 Hlive; simpl; [discriminate|].
  destruct (filtered s r query) as [[|]| |] eqn:E; try discriminate.
  - apply IH. intros r' Hin. apply Hlive. right. exact Hin.
  - intros [= <- <-].
    destruct (String.eqb_spec (rowJoin r) "") as [Hj|_]; [|reflexivity].
    elim (Hlive r (or_introl eq_refl) E Hj).
Qed.

(** * Further properties of the code *)

(** ** extractIdAndGid *)

Lemma chars_append (a b : string) : chars (a ++ b)%string = chars a ++ chars b.
Proof.
  induction a as [|c a IH]; simpl; [reflexivity|]. rewrite IH. reflexivity.
Qed.

Lemma startsWith_app (pat r : list ascii) : startsWith pat (pat ++ r) = true.
Proof.
  induction pat as [|p pat IH]; simpl; [reflexivity|].
  rewrite Ascii.eqb_refl. exact IH.
Qed.

Lemma startsWith_split (pat l : list ascii) :
  startsWith pat l = true -> exists r, l = pat ++ r.
Proof.
  revert l. induction pat as [|p pat IH]; intros l; simpl.
  - intros _. exists l. reflexivity.
  - destruct l as [|c l]; [discriminate|].
    intros H. apply andb_true_iff in H. destruct H as [Hc Hl].
    apply Ascii.eqb_eq in Hc. subst c.
    destruct (IH l Hl) as [r ->]. exists r. reflexivity.
Qed.

(** A pattern no longer than [l] is looked for in [l] alone. *)
Lemma startsWith_long (pat l r : list ascii) :
  List.length pat <= List.length l ->
  startsWith pat (l ++ r) = startsWith pat l.
Proof.
  revert l. induction pat as [|p pat IH]; intros l; simpl; [reflexivity|].
  destruct l as [|c l]; simpl; [lia|].
  intros H. rewrite IH by lia. reflexivity.
Qed.

(** Positions at which the pattern cannot match are passed over. *)
Lemma firstMatch_skip (matchAt : list ascii -> option (list ascii))
      (lit pre rest : list ascii) (tail : list ascii) :
  (forall l, startsWith lit l = false -> matchAt l = None) ->
  List.length lit <= S (List.length tail) ->
  occurs lit (pre ++ tail) = false ->
  firstMatch matchAt (pre ++ tail ++ rest) = firstMatch matchAt (tail ++ rest).
Proof.
  intros Hlit Hlen. induction pre as [|c pre IH]; intros Hocc; [reflexivity|].
  change ((c :: pre) ++ tail) with (c :: (pre ++ tail)) in Hocc.
  cbn [occurs] in Hocc. apply orb_false_iff in Hocc. destruct Hocc as [Hhere Hlater].
  change ((c :: pre) ++ tail ++ rest) with (c :: (pre ++ tail ++ rest)).
  cbn [firstMatch]. rewrite Hlit; [apply IH; exact Hlater|].
  change (c :: pre ++ tail ++ rest) with ((c :: pre) ++ tail ++ rest).
  rewrite app_assoc. rewrite startsWith_long; [exact Hhere|].
  rewrite length_app. simpl. lia.
Qed.

Lemma dotStarThen_exact (lit captured post : list ascii) :
  Forall (fun c => isLineTerminator c = false) captured ->
  dotStarThen lit (lit ++ post) = Some [] ->
  dotStarThen lit (captured ++ lit ++ post) = Some captured.
Proof.
  intros Hline Hend. induction Hline as [|c captured Hc _ IH]; [exact Hend|].
  change ((c :: captured) ++ lit ++ post) with (c :: (captured ++ lit ++ post)).
  cbn [dotStarThen]. rewrite Hc, IH. reflexivity.
Qed.

(** What the group holds is followed by the literal, and holds no line
    terminator. *)
Lemma dotStarThen_sound (lit l captured : list ascii) :
  dotStarThen lit l = Some captured ->
  Forall (fun c => isLineTerminator c = false) captured
  /\ exists post, l = captured ++ lit ++ post.
Proof.
  revert captured. induction l as [|c l IH]; intros captured; cbn [dotStarThen].
  - destruct (startsWith lit []) eqn:E; [|discriminate].
    intros [= <-]. split; [constructor|].
    destruct (startsWith_split _ _ E) as [r Hr]. exists r. exact Hr.
  - destruct (isLineTerminator c) eqn:Ec.
    + destruct (startsWith lit (c :: l)) eqn:E; [|discriminate].
      intros [= <-]. split; [constructor|].
      destruct (startsWith_split _ _ E) as [r Hr]. exists r. exact Hr.
    + destruct (dotStarThen lit l) as [inner|] eqn:Ei.
      * intros [= <-]. destruct (IH inner eq_refl) as (Hline & post & ->).
        split; [constructor; assumption|]. exists post. reflexivity.
      * destruct (startsWith lit (c :: l)) eqn:E; [|discriminate].
        intros [= <-]. split; [constructor|].
        destruct (startsWith_split _ _ E) as [r Hr]. exists r. exact Hr.
Qed.

Lemma firstMatch_sound (matchAt : list ascii -> option (list ascii))
      (l captured : list ascii) :
  firstMatch matchAt l = Some captured ->
  exists pre rest, l = pre ++ rest /\ matchAt rest = Some captured.
Proof.
  induction l as [|c l IH]; cbn [firstMatch].
  - destruct (matchAt []) eqn:E; [|discriminate].
    intros [= <-]. exists [], []. split; [reflexivity|exact E].
  - destruct (matchAt (c :: l)) eqn:E.
    + intros [= <-]. exists [], (c :: l). split; [reflexivity|exact E].
    + intros H. destruct (IH H) as (pre & rest & -> & Hm).
      exists (c :: pre), rest. split; [reflexivity|exact Hm].
Qed.

Lemma firstMatch_here (matchAt : list ascii -> option (list ascii))
      (l captured : list ascii) :
  matchAt l = Some captured -> firstMatch matchAt l = Some captured.
Proof.
  intros H. destruct l; cbn [firstMatch]; rewrite H; reflexivity.
Qed.

Lemma firstMatch_none (matchAt : list ascii -> option (list ascii))
      (lit l : list ascii) :
  (forall l', startsWith lit l' = false -> matchAt l' = None) ->
  occurs lit l = false -> firstMatch matchAt l = None.
Proof.
  intros Hlit. induction l as [|c l IH]; cbn [occurs firstMatch]; intros H;
    apply orb_false_iff in H; destruct H as [Hhere Hlater];
    rewrite (Hlit _ Hhere); [reflexivity|apply IH; exact Hlater].
Qed.

Lemma string_of_chars_app (a b : list ascii) :
  string_of_list_ascii (a ++ b)
  = (string_of_list_ascii a ++ string_of_list_ascii b)%string.
Proof.
  induction a as [|c a IH]; simpl; [reflexivity|]. rewrite IH. reflexivity.
Qed.

Lemma takeDigits_exact (ds post : list ascii) :
  Forall (fun c => isDecimalDigit c = true) ds ->
  takeDigits post = [] ->
  takeDigits (ds ++ post) = ds.
Proof.
  intros Hds Hpost. induction Hds as [|c ds Hc _ IH]; [exact Hpost|].
  simpl. rewrite Hc, IH. reflexivity.
Qed.

Lemma takeDigits_sound (l : list ascii) :
  Forall (fun c => isDecimalDigit c = true) (takeDigits l)
  /\ exists post, l = takeDigits l ++ post.
Proof.
  induction l as [|c l (Hd & post & Hpost)]; simpl.
  - split; [constructor|]. exists []. reflexivity.
  - destruct (isDecimalDigit c) eqn:Ec.
    + split; [constructor; assumption|]. exists post. simpl. congruence.
    + split; [constructor|]. exists (c :: l). reflexivity.
Qed.

Lemma idMatchAt_needs_literal (l : list ascii) :
  startsWith (chars "/d/") l = false -> idMatchAt l = None.
Proof. unfold idMatchAt. intros ->. reflexivity. Qed.

Lemma gidMatchAt_needs_literal (l : list ascii) :
  startsWith (chars "gid=") l = false -> gidMatchAt l = None.
Proof. unfold gidMatchAt. intros ->. reflexivity. Qed.

Lemma dotStarThen_edit (post : list ascii) :
  dotStarThen (chars "/edit") post = None ->
  dotStarThen (chars "/edit") (chars "/edit" ++ post) = Some [].
Proof.
  intros H. simpl in *. rewrite H. reflexivity.
Qed.

(** X1.  The identifier of a link is recovered.  When "/d/" first occurs
    right before [ident], [ident] holds no line terminator, "/edit"
    follows it and no later "/edit" can be reached on the same line, the
    [id] extracted is [ident]. *)
Theorem extractIdAndGid_id (pre ident post : string) :
  occurs (chars "/d/") (chars pre ++ chars "/d") = false ->
  Forall (fun c => isLineTerminator c = false) (chars ident) ->
  dotStarThen (chars "/edit") (chars post) = None ->
  id (extractIdAndGid (pre ++ "/d/" ++ ident ++ "/edit" ++ post)%string)
  = Some ident.
Proof.
  intros Hpre Hident Hpost. unfold extractIdAndGid. cbn [id].
  rewrite !chars_append.
  change (chars "/d/") with (chars "/d" ++ chars "/") at 1.
  rewrite <- (app_assoc (chars "/d") (chars "/")).
  rewrite (firstMatch_skip idMatchAt (chars "/d/") (chars pre)
             (chars "/" ++ chars ident ++ chars "/edit" ++ chars post)
             (chars "/d") idMatchAt_needs_literal); [|simpl; lia|exact Hpre].
  change (chars "/d" ++ chars "/" ++ chars ident ++ chars "/edit" ++ chars post)
    with (chars "/d/" ++ chars ident ++ chars "/edit" ++ chars post).
  assert (Hat : idMatchAt (chars "/d/" ++ chars ident ++ chars "/edit" ++ chars post)
                = Some (chars ident)).
  { unfold idMatchAt. rewrite startsWith_app.
    change (skipn 3 (chars "/d/" ++ chars ident ++ chars "/edit" ++ chars post))
      with (chars ident ++ chars "/edit" ++ chars post).
    apply dotStarThen_exact; [exact Hident|].
    apply dotStarThen_edit. exact Hpost. }
  rewrite (firstMatch_here _ _ _ Hat). simpl.
  rewrite string_of_list_ascii_of_string. reflexivity.
Qed.

Lemma extractIdAndGid_id_witness :
  let pre := "https://docs.google.com/spreadsheets" in
  let ident := "1Z5FFXPsi_1wrq-DiuDtK-qfZz_pC6za0ZJXR4JHyIbs" in
  let post := "#gid=2076195736" in
  (occurs (chars "/d/") (chars pre ++ chars "/d") = false
   /\ Forall (fun c => isLineTerminator c = false) (chars ident)
   /\ dotStarThen (chars "/edit") (chars post) = None)
  /\ id (extractIdAndGid sheetLink) = Some ident.
Proof.
  intros pre ident post.
  assert (H1 : occurs (chars "/d/") (chars pre ++ chars "/d") = false) by reflexivity.
  assert (H2 : Forall (fun c => isLineTerminator c = false) (chars ident))
    by (repeat constructor).
  assert (H3 : dotStarThen (chars "/edit") (chars post) = None) by reflexivity.
  split; [split; [exact H1|split; [exact H2|exact H3]]|].
  exact (extractIdAndGid_id pre ident post H1 H2 H3).
Defined.

(** X2.  The sheet number of a link is recovered.  When "gid=" first occurs
    right before a nonempty run of digits that no digit follows, the
    [gid] extracted is that run. *)
Theorem extractIdAndGid_gid (pre digits post : string) :
  occurs (chars "gid=") (chars pre ++ chars "gid") = false ->
  digits <> ""%string ->
  Forall (fun c => isDecimalDigit c = true) (chars digits) ->
  takeDigits (chars post) = [] ->
  gid (extractIdAndGid (pre ++ "gid=" ++ digits ++ post)%string) = Some digits.
Proof.
  intros Hpre Hne Hdigits Hpost. unfold extractIdAndGid. cbn [gid].
  rewrite !chars_append.
  change (chars "gid=") with (chars "gid" ++ chars "=") at 1.
  rewrite <- (app_assoc (chars "gid") (chars "=")).
  rewrite (firstMatch_skip gidMatchAt (chars "gid=") (chars pre)
             (chars "=" ++ chars digits ++ chars post)
             (chars "gid") gidMatchAt_needs_literal); [|simpl; lia|exact Hpre].
  change (chars "gid" ++ chars "=" ++ chars digits ++ chars post)
    with (chars "gid=" ++ chars digits ++ chars post).
  assert (Hat : gidMatchAt (chars "gid=" ++ chars digits ++ chars post)
                = Some (chars digits)).
  { unfold gidMatchAt. rewrite startsWith_app.
    change (skipn 4 (chars "gid=" ++ chars digits ++ chars post))
      with (chars digits ++ chars post).
    rewrite (takeDigits_exact _ _ Hdigits Hpost).
    destruct digits; [congruence|reflexivity]. }
  rewrite (firstMatch_here _ _ _ Hat). simpl.
  rewrite string_of_list_ascii_of_string. reflexivity.
Qed.

Lemma extractIdAndGid_gid_witness :
  let pre := "https://docs.google.com/spreadsheets/d/1Z5FFXPsi_1wrq-DiuDtK-qfZz_pC6za0ZJXR4JHyIbs/edit#" in
  let digits := "2076195736" in
  (occurs (chars "gid=") (chars pre ++ chars "gid") = false
   /\ digits <> ""%string
   /\ Forall (fun c => isDecimalDigit c = true) (chars digits)
   /\ takeDigits (chars "") = [])
  /\ gid (extractIdAndGid sheetLink) = Some digits.
Proof.
  intros pre digits.
  assert (H1 : occurs (chars "gid=") (chars pre ++ chars "gid") = false) by reflexivity.
  assert (H2 : digits <> ""%string) by discriminate.
  assert (H3 : Forall (fun c => isDecimalDigit c = true) (chars digits))
    by (repeat constructor).
  assert (H4 : takeDigits (chars "") = []) by reflexivity.
  split; [split; [exact H1|split; [exact H2|split; [exact H3|exact H4]]]|].
  exact (extractIdAndGid_gid pre digits "" H1 H2 H3 H4).
Defined.

(** X3.  What [extractIdAndGid] returns is read off the link.  An [id] stands
    in the link between "/d/" and "/edit" and holds no line terminator;
    a [gid] is a nonempty run of digits that stands after "gid="; and a
    link in which "/d/" (or "gid=") does not occur yields [null] for
    [id] (for [gid]). *)
Theorem extractIdAndGid_sound (url : string) :
  (forall x, id (extractIdAndGid url) = Some x ->
     Forall (fun c => isLineTerminator c = false) (chars x)
     /\ exists pre post, url = (pre ++ "/d/" ++ x ++ "/edit" ++ post)%string)
  /\ (forall g, gid (extractIdAndGid url) = Some g ->
       g <> ""%string
       /\ Forall (fun c => isDecimalDigit c = true) (chars g)
       /\ exists pre post, url = (pre ++ "gid=" ++ g ++ post)%string)
  /\ (occurs (chars "/d/") (chars url) = false -> id (extractIdAndGid url) = None)
  /\ (occurs (chars "gid=") (chars url) = false -> gid (extractIdAndGid url) = None).
Proof.
  unfold extractIdAndGid. cbn [id gid].
  split; [|split; [|split]].
  - intros x Hx.
    destruct (firstMatch idMatchAt (chars url)) as [cap|] eqn:E; [|discriminate].
    injection Hx as <-. rewrite list_ascii_of_string_of_list_ascii.
    destruct (firstMatch_sound _ _ _ E) as (pre & rest & Hurl & Hm).
    unfold idMatchAt in Hm.
    destruct (startsWith (chars "/d/") rest) eqn:Es; [|discriminate].
    destruct (startsWith_split _ _ Es) as [r ->].
    change (skipn 3 (chars "/d/" ++ r)) with r in Hm.
    destruct (dotStarThen_sound _ _ _ Hm) as (Hline & post & ->).
    split; [exact Hline|].
    exists (string_of_list_ascii pre), (string_of_list_ascii post).
    rewrite <- (string_of_list_ascii_of_string url), Hurl.
    rewrite !string_of_chars_app. reflexivity.
  - intros g Hg.
    destruct (firstMatch gidMatchAt (chars url)) as [cap|] eqn:E; [|discriminate].
    injection Hg as <-. rewrite list_ascii_of_string_of_list_ascii.
    destruct (firstMatch_sound _ _ _ E) as (pre & rest & Hurl & Hm).
    unfold gidMatchAt in Hm.
    destruct (startsWith (chars "gid=") rest) eqn:Es; [|discriminate].
    destruct (startsWith_split _ _ Es) as [r ->].
    change (skipn 4 (chars "gid=" ++ r)) with r in Hm.
    destruct (takeDigits_sound r) as (Hd & post & Hr).
    destruct (takeDigits r) as [|d ds] eqn:Et; [discriminate|].
    injection Hm as <-.
    split; [discriminate|]. split; [exact Hd|].
    exists (string_of_list_ascii pre), (string_of_list_ascii post).
    rewrite <- (string_of_list_ascii_of_string url), Hurl, Hr.
    rewrite !string_of_chars_app. reflexivity.
  - intros H. rewrite (firstMatch_none idMatchAt _ _ idMatchAt_needs_literal H).
    reflexivity.
  - intros H. rewrite (firstMatch_none gidMatchAt _ _ gidMatchAt_needs_literal H).
    reflexivity.
Qed.

Lemma extractIdAndGid_sound_witness :
  let x := "1Z5FFXPsi_1wrq-DiuDtK-qfZz_pC6za0ZJXR4JHyIbs" in
  (id (extractIdAndGid sheetLink) = Some x
   /\ exists pre post, sheetLink = (pre ++ "/d/" ++ x ++ "/edit" ++ post)%string)
  /\ (gid (extractIdAndGid sheetLink) = Some "2076195736"
      /\ exists pre post, sheetLink = (pre ++ "gid=" ++ "2076195736" ++ post)%string)
  /\ (occurs (chars "/d/") (chars "no link") = false
      /\ id (extractIdAndGid "no link") = None)
  /\ (occurs (chars "gid=") (chars "no link") = false
      /\ gid (extractIdAndGid "no link") = None).
Proof.
  intros x.
  assert (H1 : id (extractIdAndGid sheetLink) = Some x) by reflexivity.
  assert (H2 : gid (extractIdAndGid sheetLink) = Some "2076195736") by reflexivity.
  assert (H3 : occurs (chars "/d/") (chars "no link") = false) by reflexivity.
  assert (H4 : occurs (chars "gid=") (chars "no link") = false) by reflexivity.
  destruct (extractIdAndGid_sound sheetLink) as (Hid & Hgid & _ & _).
  destruct (extractIdAndGid_sound "no link") as (_ & _ & Hnoid & Hnogid).
  split; [split; [exact H1|exact (proj2 (Hid x H1))]|].
  split; [split; [exact H2|exact (proj2 (proj2 (Hgid _ H2)))]|].
  split; [split; [exact H3|exact (Hnoid H3)]|].
  split; [exact H4|exact (Hnogid H4)].
Defined.

(** ** Binding: columns, restarts and fresh sheets *)

(** X4.  The columns a binding assigns.  After [addHeaders] has fetched
    the header, every schema field carries the index of a column that
    exists in the merged header and bears the field's name, two fields
    of different names never share a column, the declared type and
    [required] flag are untouched, and, when the header fetched is absent
    or begins with "__ID", no field other than one named "__ID" is bound
    to column 0. *)
Theorem binding_columns
        (s : Schema) (hs0 : list string) (fetched : option (list string))
        (updateRes : outcome unit) :
  let b := addHeaders s hs0 (Returned fetched) updateRes in
  keys (boundSchema b) = keys s
  /\ (forall k f, own (boundSchema b) k = Some f ->
      exists g i,
        own s k = Some g /\ f = mkField (type g) (required g) (Some i)
        /\ i < List.length (boundHeaders b)
        /\ nth_error (boundHeaders b) i = Some k)
  /\ (forall k1 k2 f1 f2,
      own (boundSchema b) k1 = Some f1 -> own (boundSchema b) k2 = Some f2 ->
      k1 <> k2 -> index f1 <> index f2)
  /\ ((fetched = None \/ exists rest, fetched = Some ("__ID" :: rest)) ->
      forall k f, own (boundSchema b) k = Some f -> k <> "__ID" ->
                  exists i, index f = Some i /\ 1 <= i).
Proof.
  intros b.
  assert (Hcol : forall k f, own (boundSchema b) k = Some f ->
             exists g i,
               own s k = Some g /\ f = mkField (type g) (required g) (Some i)
               /\ i < List.length (boundHeaders b)
               /\ nth_error (boundHeaders b) i = Some k).
  { intros k f Hf. unfold b in Hf. simpl in Hf.
    pose proof Hf as Hf'. rewrite own_assignIndex in Hf'.
    destruct (own s k) as [g|] eqn:Eg; [|discriminate].
    destruct (addHeaders_index s hs0 fetched updateRes k g Eg) as (p & Hp & Hb).
    simpl in Hb. rewrite Hf in Hb. injection Hb as ->.
    exists g, p. split; [reflexivity|]. split; [reflexivity|].
    destruct (lastPosition_sound _ _ _ _ Hp) as (_ & Hnth & _).
    rewrite Nat.sub_0_r in Hnth.
    split; [|exact Hnth].
    apply nth_error_Some. simpl. rewrite Hnth. discriminate. }
  split; [apply keys_assignIndex|].
  split; [exact Hcol|].
  split.
  - intros k1 k2 f1 f2 H1 H2 Hne Heq.
    destruct (Hcol k1 f1 H1) as (g1 & i1 & _ & -> & _ & Hn1).
    destruct (Hcol k2 f2 H2) as (g2 & i2 & _ & -> & _ & Hn2).
    simpl in Heq. injection Heq as ->. congruence.
  - intros Hhead k f Hf Hne.
    destruct (Hcol k f Hf) as (g & i & _ & -> & _ & Hn).
    exists i. split; [reflexivity|].
    destruct i as [|i]; [|lia].
    assert (H0 : nth_error (boundHeaders b) 0 = Some "__ID").
    { unfold b. simpl. rewrite mergeHeaders_filter.
      destruct Hhead as [->|[rest ->]]; reflexivity. }
    rewrite H0 in Hn. congruence.
Qed.

Lemma binding_columns_witness :
  let b := addHeaders exampleSchema [] (Returned (Some ["__ID"; "age"])) (Returned tt) in
  let fage := mkField TNumber (Some true) (Some 1) in
  let fname := mkField TString (Some true) (Some 2) in
  (own (boundSchema b) "age" = Some fage /\ own (boundSchema b) "name" = Some fname
   /\ "age" <> "name"
   /\ (Some ["__ID"; "age"] = None
       \/ exists rest, Some ["__ID"; "age"] = Some ("__ID" :: rest))
   /\ "age" <> "__ID")
  /\ index fage <> index fname
  /\ (exists i, index fage = Some i /\ 1 <= i)
  /\ nth_error (boundHeaders b) 2 = Some "name".
Proof.
  intros b fage fname.
  assert (H1 : own (boundSchema b) "age" = Some fage) by reflexivity.
  assert (H2 : own (boundSchema b) "name" = Some fname) by reflexivity.
  assert (H3 : "age" <> "name") by discriminate.
  assert (H4 : Some ["__ID"; "age"] = None
               \/ exists rest, Some ["__ID"; "age"] = Some ("__ID" :: rest))
    by (right; exists ["age"]; reflexivity).
  assert (H5 : "age" <> "__ID") by discriminate.
  destruct (binding_columns exampleSchema [] (Some ["__ID"; "age"]) (Returned tt))
    as (_ & Hcol & Hinj & Hpos).
  split; [repeat split; assumption|].
  split; [exact (Hinj "age" "name" fage fname H1 H2 H3)|].
  split; [exact (Hpos H4 "age" fage H1 H5)|].
  destruct (Hcol "name" fname H2) as (g & i & _ & Hf & _ & Hn).
  injection Hf as _ _ <-. exact Hn.
Defined.

Lemma filter_none (A : Type) (p : A -> bool) (l : list A) :
  (forall x, In x l -> p x = false) -> filter p l = [].
Proof.
  induction l as [|x l IH]; intros H; simpl; [reflexivity|].
  rewrite (H x (or_introl eq_refl)). apply IH.
  intros y Hy. apply H. right. exact Hy.
Qed.

(** X5.  A restart changes nothing.  Binding the schema again against the
    header a first binding wrote yields the same merged header, the same
    bound schema and the same header write. *)
Theorem rebinding_is_idempotent
        (s : Schema) (hs1 hs2 : list string) (fetched : option (list string))
        (upd1 upd2 : outcome unit) :
  let b1 := addHeaders s hs1 (Returned fetched) upd1 in
  let b2 := addHeaders s hs2 (Returned (Some (boundHeaders b1))) upd2 in
  boundHeaders b2 = boundHeaders b1
  /\ boundSchema b2 = boundSchema b1
  /\ issued b2 = issued b1.
Proof.
  intros b1 b2.
  assert (H : boundHeaders b2 = boundHeaders b1).
  { unfold b2. simpl. rewrite (mergeHeaders_filter (Some _)). cbv zeta.
    rewrite filter_none; [apply app_nil_r|].
    intros k Hin. rewrite mergeHeaders_has by exact Hin. reflexivity. }
  split; [exact H|].
  unfold b2, b1 in *. simpl in *. rewrite H. split; reflexivity.
Qed.

(** ** Decoding a row into a record *)

Lemma own_fillObject_other (row : list string) (ks : list string) (j : nat)
      (obj : object value) (k : string) :
  ~ In k ks -> own (fillObject row ks j obj) k = own obj k.
Proof.
  revert j obj. induction ks as [|k0 ks IH]; intros j obj Hnin; simpl; [reflexivity|].
  rewrite IH by (intros H; apply Hnin; right; exact H).
  rewrite own_put. destruct (String.eqb_spec k k0) as [->|_]; [|reflexivity].
  elim Hnin. left. reflexivity.
Qed.

Lemma own_fillObject_at (row : list string) (ks : list string) (j n : nat)
      (obj : object value) (k : string) :
  NoDup ks -> nth_error ks n = Some k ->
  own (fillObject row ks j obj) k = Some (decodeCell (nth_error row (j + n))).
Proof.
  intros Hnd. revert j n obj.
  induction Hnd as [|k0 ks Hnin _ IH]; intros j n obj; [destruct n; discriminate|].
  destruct n as [|n]; simpl.
  - intros [= ->]. rewrite own_fillObject_other by exact Hnin.
    rewrite own_put, String.eqb_refl, Nat.add_0_r. reflexivity.
  - intros Hn. rewrite (IH (S j) n _ Hn). do 3 f_equal. lia.
Qed.



Lemma rowToObject_field (s : Schema) (row : list string) (j : nat) (k : string) :
  NoDup (keys s) -> ~ In "__ID" (keys s) ->
  nth_error (keys s) j = Some k ->
  own (rowToObject s row) k = Some (decodeCell (nth_error row (S j))).
Proof.
  intros Hnd Hid Hj. unfold rowToObject.
  apply (own_fillObject_at row ("__ID" :: keys s) 0 (S j) [] k).
  - constructor; assumption.
  - exact Hj.
Qed.


Lemma exampleSchema_keys :
  NoDup (keys exampleSchema) /\ ~ In "__ID" (keys exampleSchema).
Proof.
  split.
  - constructor; [intros [H|[]]; discriminate H|].
    constructor; [intros []|constructor].
  - intros [H|[H|[]]]; discriminate H.
Defined.


Lemma lastPosition_nodup (k : string) (hs : list string) (i j : nat) :
  NoDup hs -> nth_error hs j = Some k -> lastPosition k hs i = Some (i + j).
Proof.
  intros Hnd. revert i j.
  induction Hnd as [|h hs Hnin _ IH]; intros i j; [destruct j; discriminate|].
  destruct j as [|j]; simpl.
  - intros [= ->]. rewrite lastPosition_none by (apply has_false; exact Hnin).
    rewrite String.eqb_refl, Nat.add_0_r. reflexivity.
  - intros Hj. rewrite (IH (S i) j Hj). f_equal. lia.
Qed.

Lemma filter_all (A : Type) (p : A -> bool) (l : list A) :
  (forall x, In x l -> p x = true) -> filter p l = l.
Proof.
  induction l as [|x l IH]; intros H; simpl; [reflexivity|].
  rewrite (H x (or_introl eq_refl)). f_equal. apply IH.
  intros y Hy. apply H. right. exact Hy.
Qed.

(** The keys a header made of the first [m] keys still lacks are the
    keys after them. *)
Lemma filter_missing_firstn (l : list string) (m : nat) (pre : list string) :
  NoDup l -> (forall k, In k l -> ~ In k pre) ->
  filter (fun k => negb (has (pre ++ firstn m l) k)) l = skipn m l.
Proof.
  intros Hnd. revert m pre.
  induction Hnd as [|a l Hnin _ IH]; intros m pre Hpre.
  - destruct m; reflexivity.
  - destruct m as [|m].
    + simpl firstn. rewrite app_nil_r. apply filter_all.
      intros k Hk. apply negb_true_iff, has_false, Hpre, Hk.
    + simpl firstn. simpl skipn. cbn [filter].
      replace (has (pre ++ a :: firstn m l) a) with true
        by (symmetry; apply has_true, in_or_app; right; left; reflexivity).
      simpl negb. cbv iota.
      replace (pre ++ a :: firstn m l) with ((pre ++ [a]) ++ firstn m l)
        by (rewrite <- app_assoc; reflexivity).
      apply IH. intros k Hk Hin. apply in_app_or in Hin.
      destruct Hin as [Hin|[<-|[]]].
      * apply (Hpre k); [right; exact Hk|exact Hin].
      * exact (Hnin Hk).
Qed.

(** X7.  Decoding follows the binding on a sheet this schema laid out.
    When the schema has no field named "__ID" and the header fetched is
    absent, or is "__ID" followed by the first fields of the schema in
    order, the merged header is "__ID" followed by all the schema fields,
    and the record [find] builds from a row holds, under every field, the
    decoded cell of the column that field is bound to. *)
Theorem decode_follows_binding
        (s : Schema) (hs0 : list string) (fetched : option (list string))
        (updateRes : outcome unit) :
  NoDup (keys s) -> ~ In "__ID" (keys s) ->
  (fetched = None \/ exists m, fetched = Some ("__ID" :: firstn m (keys s))) ->
  let b := addHeaders s hs0 (Returned fetched) updateRes in
  boundHeaders b = "__ID" :: keys s
  /\ forall k f row,
       own (boundSchema b) k = Some f ->
       own (rowToObject (boundSchema b) row) k
       = Some (decodeCell (cellAt row (index f))).
Proof.
  intros Hnd Hid Hfetched b.
  assert (Hh : boundHeaders b = "__ID" :: keys s).
  { unfold b. simpl. rewrite mergeHeaders_filter. cbv zeta.
    destruct Hfetched as [->|[m ->]].
    - rewrite filter_all; [reflexivity|].
      intros k Hk. apply negb_true_iff, has_false.
      intros [<-|[]]. exact (Hid Hk).
    - change ("__ID" :: firstn m (keys s) ++
                filter (fun k => negb (has (["__ID"] ++ firstn m (keys s)) k)) (keys s)
              = "__ID" :: keys s).
      rewrite (filter_missing_firstn (keys s) m ["__ID"] Hnd).
      + rewrite firstn_skipn. reflexivity.
      + intros k Hk [<-|[]]. exact (Hid Hk). }
  split; [exact Hh|].
  intros k f row Hf.
  assert (Hkeys : keys (boundSchema b) = keys s) by apply keys_assignIndex.
  destruct (in_keys_own _ s k) as [g Hg].
  { rewrite <- Hkeys. eapply own_some_in_keys. exact Hf. }
  destruct (In_nth_error (keys s) k (own_some_in_keys _ s k g Hg)) as [j Hj].
  assert (Hidx : index f = Some (S j)).
  { unfold b in Hf. simpl in Hf. rewrite own_assignIndex, Hg in Hf.
    fold (boundHeaders b) in Hf. unfold b in Hh. simpl in Hh. rewrite Hh in Hf.
    rewrite (lastPosition_nodup k ("__ID" :: keys s) 0 (S j)) in Hf.
    - injection Hf as <-. reflexivity.
    - constructor; assumption.
    - exact Hj. }
  rewrite Hidx. simpl cellAt.
  apply rowToObject_field; rewrite Hkeys; assumption.
Qed.

Lemma decode_follows_binding_witness :
  let b := addHeaders exampleSchema [] (Returned (Some ["__ID"; "name"])) (Returned tt) in
  let f := mkField TNumber (Some true) (Some 2) in
  (NoDup (keys exampleSchema) /\ ~ In "__ID" (keys exampleSchema)
   /\ (Some ["__ID"; "name"] = None
       \/ exists m, Some ["__ID"; "name"] = Some ("__ID" :: firstn m (keys exampleSchema)))
   /\ own (boundSchema b) "age" = Some f)
  /\ boundHeaders b = "__ID" :: keys exampleSchema
  /\ own (rowToObject (boundSchema b) ["id-1"; "Ann"; "30"]) "age"
     = Some (decodeCell (cellAt ["id-1"; "Ann"; "30"] (index f))).
Proof.
  intros b f.
  destruct exampleSchema_keys as [H1 H2].
  assert (H3 : Some ["__ID"; "name"] = None
               \/ exists m, Some ["__ID"; "name"]
                            = Some ("__ID" :: firstn m (keys exampleSchema)))
    by (right; exists 1; reflexivity).
  assert (H4 : own (boundSchema b) "age" = Some f) by reflexivity.
  destruct (decode_follows_binding exampleSchema [] (Some ["__ID"; "name"])
              (Returned tt) H1 H2 H3) as [Hh Hdec].
  split; [split; [exact H1|split; [exact H2|split; [exact H3|exact H4]]]|].
  split; [exact Hh|].
  exact (Hdec "age" f ["id-1"; "Ann"; "30"] H4).
Defined.

(** ** find and findOne *)

Lemma filtered_known (s : Schema) (row : list string) (query : object value) :
  forallb (knownKey s) (keys query) = true ->
  filtered s row query = Ok (negb (forallb (holds s row) query)).
Proof.
  induction query as [|[k v] query IH]; [reflexivity|].
  cbn [keys map fst forallb filtered]. intros H.
  apply andb_true_iff in H. destruct H as [Hk Hrest].
  specialize (IH Hrest).
  unfold knownKey in Hk. unfold holds at 1. unfold queriedCell, schemaIndex.
  cbn [fst snd].
  destruct (String.eqb k "__ID").
  - destruct (strictNotEqual (nth_error row 0) v); [reflexivity|].
    simpl. exact IH.
  - simpl in Hk. destruct (own s k) as [f|].
    + destruct (strictNotEqual (cellAt row (index f)) v); [reflexivity|].
      simpl. exact IH.
    + rewrite Hk.
      destruct (strictNotEqual (cellAt row None) v); [reflexivity|].
      simpl. exact IH.
Qed.

Lemma selected_known (s : Schema) (query : object value) (row : list string) :
  forallb (knownKey s) (keys query) = true ->
  selected s query row = matches s query row.
Proof.
  intros H. unfold selected, matches. rewrite (filtered_known s row query H).
  destruct (forallb (holds s row) query); reflexivity.
Qed.

Lemma convertRows_known (s : Schema) (query : object value) (rows : grid)
      (acc : list (object value)) :
  forallb (knownKey s) (keys query) = true ->
  convertRows s rows query acc
  = Ok (acc ++ map (rowToObject s) (filter (matches s query) rows)).
Proof.
  intros H. revert acc. induction rows as [|r rows IH]; intros acc; simpl.
  - rewrite app_nil_r. reflexivity.
  - unfold matches at 1. rewrite (filtered_known s r query H).
    destruct (forallb (holds s r) query); simpl; [|apply IH].
    destruct (String.eqb (rowJoin r) ""); simpl; [apply IH|].
    rewrite IH, <- app_assoc. reflexivity.
Qed.

Lemma convertRowsOne_known (s : Schema) (query : object value) (rows : grid) :
  forallb (knownKey s) (keys query) = true ->
  convertRowsOne s rows query
  = Ok (hd_error (map (rowToObject s) (filter (matches s query) rows))).
Proof.
  intros H. induction rows as [|r rows IH]; simpl; [reflexivity|].
  unfold matches at 1. rewrite (filtered_known s r query H).
  destruct (forallb (holds s r) query); simpl; [|apply IH].
  destruct (String.eqb (rowJoin r) ""); simpl; [apply IH|reflexivity].
Qed.

(** X8.  What find and findOne return.  On a ready instance, for a query
    all of whose keys are "__ID", schema fields or names every object
    inherits, [find] returns the decoded data rows on which every key of
    the query equals the cell it is compared with and which are not
    blank, in row order and never the header row; [findOne] returns the
    first of them, or null. *)
Theorem find_is_filter
        (db : GoogleDB) (d : grid) (query : object value) (v : string) :
  isReady db = Fulfilled v -> sheets db = true ->
  forallb (knownKey (schema db)) (keys query) = true ->
  find db (Returned (Some d)) query
  = Ok (map (rowToObject (schema db)) (filter (matches (schema db) query) (tl d)))
  /\ findOne db (Returned (Some d)) query
     = Ok (hd_error (map (rowToObject (schema db))
                         (filter (matches (schema db) query) (tl d)))).
Proof.
  intros Hready Hsheets Hknown. unfold find, findOne.
  rewrite Hready, Hsheets. cbn [await].
  unfold convertDataToJSONWithFilters, convertDataToJSONWithFiltersOne.
  rewrite (convertRows_known _ _ _ [] Hknown).
  rewrite (convertRowsOne_known _ _ _ Hknown). split; reflexivity.
Qed.

Lemma find_is_filter_witness :
  let query := [("name", VString "Bob")] in
  (isReady exampleDB = Fulfilled "success" /\ sheets exampleDB = true
   /\ forallb (knownKey (schema exampleDB)) (keys query) = true)
  /\ find exampleDB (Returned (Some exampleTable)) query
     = Ok [ [("__ID", VString "id-2"); ("name", VString "Bob");
             ("age", VNumber (Finite false 41 0))] ].
Proof.
  intros query.
  assert (H1 : isReady exampleDB = Fulfilled "success") by reflexivity.
  assert (H2 : sheets exampleDB = true) by reflexivity.
  assert (H3 : forallb (knownKey (schema exampleDB)) (keys query) = true)
    by reflexivity.
  split; [split; [exact H1|split; [exact H2|exact H3]]|].
  exact (proj1 (find_is_filter exampleDB exampleTable query "success" H1 H2 H3)).
Defined.

(** A row the query loop runs through to its end shows that the loop
    throws on no row. *)
Lemma filtered_pass_total (s : Schema) (query : object value) (r r' : list string) :
  filtered s r query = Ok false -> exists b, filtered s r' query = Ok b.
Proof.
  induction query as [|[k v] query IH]; cbn [filtered]; [eauto|].
  destruct (String.eqb k "__ID").
  - destruct (strictNotEqual (nth_error r 0) v); [discriminate|].
    intros H. destruct (strictNotEqual (nth_error r' 0) v); eauto.
  - destruct (schemaIndex s k) as [i|e|]; try discriminate.
    destruct (strictNotEqual (cellAt r i) v); [discriminate|].
    intros H. destruct (strictNotEqual (cellAt r' i) v); eauto.
Qed.

Lemma convertRows_total (s : Schema) (query : object value) (rows : grid)
      (acc : list (object value)) :
  (forall r, In r rows -> exists b, filtered s r query = Ok b) ->
  convertRows s rows query acc
  = Ok (acc ++ map (rowToObject s) (filter (selected s query) rows)).
Proof.
  revert acc. induction rows as [|r rows IH]; intros acc H; simpl.
  - rewrite app_nil_r. reflexivity.
  - assert (Hrest : forall r', In r' rows -> exists b, filtered s r' query = Ok b)
      by (intros r' Hin; apply H; right; exact Hin).
    unfold selected at 1. destruct (H r (or_introl eq_refl)) as [b Hb].
    rewrite Hb. destruct b; [apply IH; exact Hrest|].
    destruct (String.eqb (rowJoin r) ""); simpl; [apply IH; exact Hrest|].
    rewrite IH by exact Hrest. rewrite <- app_assoc. reflexivity.
Qed.

Lemma convertRowsOne_head (s : Schema) (query : object value) (rows : grid)
      (acc : list (object value)) :
  convertRowsOne s rows query
  = match convertRows s rows query acc with
    | Ok out => Ok (hd_error (skipn (List.length acc) out))
    | Throw e => Throw e
    | Suspended => Suspended
    end.
Proof.
  revert acc. induction rows as [|r rows IH]; intros acc; simpl.
  - rewrite skipn_all. reflexivity.
  - destruct (filtered s r query) as [[|]|e|] eqn:E; try reflexivity; [apply IH|].
    destruct (String.eqb (rowJoin r) ""); [apply IH|].
    rewrite convertRows_total.
    + rewrite <- app_assoc, skipn_app, skipn_all, Nat.sub_diag. reflexivity.
    + intros r' _. exact (filtered_pass_total s query r r' E).
Qed.

(** X9.  [findOne] is the head of [find].  Whatever the instance, the fetched
    table and the query, [findOne] ends as [find] does: with the first
    record [find] returns, with null when [find] returns none, with the
    same exception when [find] throws. *)
Theorem findOne_is_head_of_find
        (db : GoogleDB) (getRes : outcome (option grid)) (query : object value) :
  findOne db getRes query
  = match find db getRes query with
    | Ok out => Ok (hd_error out)
    | Throw e => Throw e
    | Suspended => Suspended
    end.
Proof.
  unfold findOne, find.
  destruct (await (isReady db)); try reflexivity.
  destruct (sheets db); [|reflexivity].
  destruct getRes as [[d|]|e]; try reflexivity.
  unfold convertDataToJSONWithFiltersOne, convertDataToJSONWithFilters.
  apply (convertRowsOne_head (schema db) query (tl d) []).
Qed.

(** ** Queries by a number, a boolean or null *)

Lemma strictNotEqual_neverACell (cell : option string) (v : value) :
  neverACell v = true -> strictNotEqual cell v = true.
Proof.
  destruct cell, v; simpl; congruence.
Qed.

Lemma filtered_neverACell (s : Schema) (row : list string) (query : object value)
      (k : string) (v : value) :
  In (k, v) query -> neverACell v = true -> filtered s row query <> Ok false.
Proof.
  intros Hin Hv. induction query as [|[k' v'] query IH]; [destruct Hin|].
  cbn [filtered]. destruct Hin as [[= -> ->]|Hin].
  - destruct (String.eqb k "__ID").
    + rewrite strictNotEqual_neverACell by exact Hv. discriminate.
    + destruct (schemaIndex s k) as [i|e|]; try discriminate.
      rewrite strictNotEqual_neverACell by exact Hv. discriminate.
  - specialize (IH Hin). destruct (String.eqb k' "__ID").
    + destruct (strictNotEqual (nth_error row 0) v'); [discriminate|exact IH].
    + destruct (schemaIndex s k') as [i|e|]; try discriminate.
      destruct (strictNotEqual (cellAt row i) v'); [discriminate|exact IH].
Qed.

Section NoRowPasses.
Variables (s : Schema) (query : object value).
Hypothesis no_row_passes : forall row, filtered s row query <> Ok false.

Lemma convertRows_no_pass (rows : grid) (acc out : list (object value)) :
  convertRows s rows query acc = Ok out -> out = acc.
Proof.
  revert acc. induction rows as [|r rows IH]; intros acc; simpl.
  - intros [= <-]. reflexivity.
  - pose proof (no_row_passes r) as Hr.
    destruct (filtered s r query) as [[|]|e|]; try discriminate; [apply IH|].
    congruence.
Qed.

Lemma convertRowsOne_no_pass (rows : grid) (r : option (object value)) :
  convertRowsOne s rows query = Ok r -> r = None.
Proof.
  induction rows as [|r0 rows IH]; simpl.
  - intros [= <-]. reflexivity.
  - pose proof (no_row_passes r0) as Hr.
    destruct (filtered s r0 query) as [[|]|e|]; try discriminate; [exact IH|].
    congruence.
Qed.

Lemma scan_no_pass (rows : grid) (i : nat) (found : nat * list string) :
  scan s rows query i <> Ok (Some found).
Proof.
  revert i. induction rows as [|r rows IH]; intros i; simpl; [discriminate|].
  pose proof (no_row_passes r) as Hr.
  destruct (filtered s r query) as [[|]|e|]; try discriminate; [apply IH|].
  congruence.
Qed.

Lemma locate_no_pass (allData : option grid) (found : nat * list string) :
  locate s allData query <> Ok found.
Proof.
  unfold locate. destruct allData as [d|]; [|discriminate].
  pose proof (scan_no_pass (tl d) 1) as H.
  destruct (scan s (tl d) query 1) as [[f|]|e|]; try discriminate.
  intros [= <-]. exact (H f eq_refl).
Qed.
End NoRowPasses.

(** X10.  A query by a number, a boolean or null finds nothing.  Cells are
    fetched as strings and compared with [!==], so when some key of the
    query asks for a value that is neither a string nor [undefined], no
    row passes: [find] can only return the empty list, [findOne] null,
    and [update] and [delete] write nothing. *)
Theorem query_by_non_string_finds_nothing
        (db : GoogleDB) (getRes : outcome (option grid))
        (query newData : object value) (updateRes : outcome unit)
        (k : string) (v : value) :
  In (k, v) query -> neverACell v = true ->
  (forall out, find db getRes query = Ok out -> out = [])
  /\ (forall r, findOne db getRes query = Ok r -> r = None)
  /\ fst (update db getRes query newData updateRes) = []
  /\ fst (delete db getRes query updateRes) = [].
Proof.
  intros Hin Hv.
  assert (Hno : forall row, filtered (schema db) row query <> Ok false)
    by (intros row; exact (filtered_neverACell _ row _ k v Hin Hv)).
  assert (Hfind : forall out, find db getRes query = Ok out -> out = []).
  { unfold find. destruct (await (isReady db)); try discriminate.
    destruct (sheets db); [|discriminate].
    destruct getRes as [[d|]|e]; try discriminate.
    intros out H. exact (convertRows_no_pass _ _ Hno _ _ _ H). }
  split; [exact Hfind|]. split.
  - unfold findOne. destruct (await (isReady db)); try discriminate.
    destruct (sheets db); [|discriminate].
    destruct getRes as [[d|]|e]; try discriminate.
    intros r H. exact (convertRowsOne_no_pass _ _ Hno _ _ H).
  - unfold update, delete.
    destruct (await (isReady db)); [|split; reflexivity..].
    destruct (sheets db); [|split; reflexivity].
    destruct getRes as [allData|e]; [|split; reflexivity].
    pose proof (locate_no_pass _ _ Hno allData) as Hl.
    destruct (locate (schema db) allData query) as [found|e|];
      [elim (Hl found eq_refl)|split; reflexivity..].
Qed.

Lemma query_by_non_string_finds_nothing_witness :
  let query := [("age", VNumber (Finite false 30 0))] in
  (In ("age", VNumber (Finite false 30 0)) query
   /\ neverACell (VNumber (Finite false 30 0)) = true
   /\ find exampleDB (Returned (Some exampleTable)) query = Ok [])
  /\ [] = ([] : list (object value))
  /\ fst (update exampleDB (Returned (Some exampleTable)) query
            [("name", VString "Zed")] (Returned tt)) = [].
Proof.
  intros query.
  assert (H1 : In ("age", VNumber (Finite false 30 0)) query) by (left; reflexivity).
  assert (H2 : neverACell (VNumber (Finite false 30 0)) = true) by reflexivity.
  assert (H3 : find exampleDB (Returned (Some exampleTable)) query = Ok [])
    by reflexivity.
  destruct (query_by_non_string_finds_nothing exampleDB
              (Returned (Some exampleTable)) query [("name", VString "Zed")]
              (Returned tt) "age" (VNumber (Finite false 30 0)) H1 H2)
    as (Hfind & _ & Hupd & _).
  split; [split; [exact H1|split; [exact H2|exact H3]]|].
  split; [exact (Hfind [] H3)|exact Hupd].
Defined.

(** ** delete *)

Lemma tombstone_repeat (n : nat) : tombstone (repeat "" n).
Proof.
  unfold tombstone. destruct n as [|n]; simpl; [constructor|].
  apply Forall_forall. intros c Hc. exact (repeat_spec _ _ _ Hc).
Qed.

Lemma map_blank (row : list string) :
  map (fun _ : string => VString "") row
  = map VString (repeat "" (List.length row)).
Proof.
  induction row as [|c row IH]; simpl; [reflexivity|]. rewrite IH. reflexivity.
Qed.

(** A blank row that does not make the query loop throw is passed over:
    the rows around it answer as they do without it. *)
Lemma convertRows_without_tombstone (s : Schema) (query : object value)
      (blank : list string) (before after : grid)
      (acc out : list (object value)) :
  tombstone blank ->
  convertRows s (before ++ blank :: after) query acc = Ok out ->
  convertRows s (before ++ after) query acc = Ok out.
Proof.
  intros Hblank. revert acc. induction before as [|r before IH]; intros acc; simpl.
  - rewrite (tombstone_rowJoin blank Hblank). simpl.
    destruct (filtered s blank query) as [[|]|e|]; try discriminate; auto.
  - destruct (filtered s r query) as [[|]|e|]; try discriminate; [apply IH|].
    destruct (String.eqb (rowJoin r) ""); apply IH.
Qed.

(** X11.  Delete leaves a tombstone.  Once a row is located, [delete]
    issues one write, at the sheet row the located row was fetched from,
    of as many empty strings as the row had cells, the identity cell
    included.  A row of empty strings, of any length, is a tombstone, and
    whenever [find] returns on a table holding such a row it returns what
    it returns on the table without that row. *)
Theorem delete_leaves_tombstone
        (db : GoogleDB) (allData : option grid) (query : object value)
        (updateRes : outcome unit) (v : string) (i : nat) (row : list string) :
  isReady db = Fulfilled v -> sheets db = true ->
  locate (schema db) allData query = Ok (i, row) ->
  delete db (Returned allData) query updateRes
  = ([ValuesUpdate (RowNumber (i + 1)) USER_ENTERED
        (map VString (repeat "" (List.length row)))],
     match updateRes with Returned _ => Ok tt | Failed e => Throw e end)
  /\ (forall n, tombstone (repeat "" n))
  /\ (forall n header before after query' out,
      find db (Returned (Some (header :: before ++ repeat "" n :: after))) query'
      = Ok out ->
      find db (Returned (Some (header :: before ++ after))) query' = Ok out).
Proof.
  intros Hready Hsheets Hloc. split; [|split].
  - unfold delete. rewrite Hready, Hsheets. cbn [await]. rewrite Hloc, map_blank.
    reflexivity.
  - exact tombstone_repeat.
  - intros n header before after query' out. unfold find.
    rewrite Hready, Hsheets. cbn [await]. unfold convertDataToJSONWithFilters.
    cbn [tl]. apply convertRows_without_tombstone. apply tombstone_repeat.
Qed.

Lemma delete_leaves_tombstone_witness :
  let query := [("__ID", VString "id-1")] in
  let after := [["__ID"; "name"; "age"]; [""; ""; ""]; ["id-2"; "Bob"; "41"]] in
  (isReady exampleDB = Fulfilled "success" /\ sheets exampleDB = true
   /\ locate (schema exampleDB) (Some exampleTable) query = Ok (1, ["id-1"; "Ann"; "30"])
   /\ find exampleDB (Returned (Some after)) []
      = Ok [rowToObject (schema exampleDB) ["id-2"; "Bob"; "41"]])
  /\ fst (delete exampleDB (Returned (Some exampleTable)) query (Returned tt))
     = [ValuesUpdate (RowNumber 2) USER_ENTERED [VString ""; VString ""; VString ""]]
  /\ find exampleDB (Returned (Some [["__ID"; "name"; "age"]; ["id-2"; "Bob"; "41"]])) []
     = Ok [rowToObject (schema exampleDB) ["id-2"; "Bob"; "41"]].
Proof.
  intros query after.
  assert (H1 : isReady exampleDB = Fulfilled "success") by reflexivity.
  assert (H2 : sheets exampleDB = true) by reflexivity.
  assert (H3 : locate (schema exampleDB) (Some exampleTable) query
               = Ok (1, ["id-1"; "Ann"; "30"])) by reflexivity.
  assert (H4 : find exampleDB (Returned (Some after)) []
               = Ok [rowToObject (schema exampleDB) ["id-2"; "Bob"; "41"]])
    by reflexivity.
  destruct (delete_leaves_tombstone exampleDB (Some exampleTable) query
              (Returned tt) "success" 1 ["id-1"; "Ann"; "30"] H1 H2 H3)
    as (Hdel & _ & Hfind).
  split; [split; [exact H1|split; [exact H2|split; [exact H3|exact H4]]]|].
  split; [exact (f_equal fst Hdel)|].
  exact (Hfind 3 ["__ID"; "name"; "age"] [] [["id-2"; "Bob"; "41"]] [] _ H4).
Defined.

(** ** Empty tables and failed startups *)

(** X12.  The operations on a sheet without data rows.  On a ready
    instance, when the sheet has no values at all [find] and [findOne]
    throw the TypeError of reading [length] off [undefined] while
    [update] and [delete] report that no row was found; when it holds at
    most the header row, [find] returns the empty list, [findOne] null
    and [update] and [delete] report that no row was found.  Nothing is
    written in either case, whatever the query. *)
Theorem operations_without_data_rows
        (db : GoogleDB) (query newData : object value) (updateRes : outcome unit)
        (v : string) :
  isReady db = Fulfilled v -> sheets db = true ->
  let notFound := Error "Cannot find row with this query!" in
  (find db (Returned None) query = Throw (readOfUndefined "length")
   /\ findOne db (Returned None) query = Throw (readOfUndefined "length")
   /\ update db (Returned None) query newData updateRes = ([], Throw notFound)
   /\ delete db (Returned None) query updateRes = ([], Throw notFound))
  /\ (forall d, List.length d <= 1 ->
      find db (Returned (Some d)) query = Ok []
      /\ findOne db (Returned (Some d)) query = Ok None
      /\ update db (Returned (Some d)) query newData updateRes = ([], Throw notFound)
      /\ delete db (Returned (Some d)) query updateRes = ([], Throw notFound)).
Proof.
  intros Hready Hsheets notFound.
  unfold find, findOne, update, delete. rewrite Hready, Hsheets. cbn [await].
  split; [repeat split|].
  intros d Hd.
  assert (Htl : tl d = []) by (destruct d as [|h [|r d]]; simpl in *; [reflexivity..|lia]).
  unfold convertDataToJSONWithFilters, convertDataToJSONWithFiltersOne, locate.
  rewrite Htl. repeat split.
Qed.

Lemma operations_without_data_rows_witness :
  (isReady exampleDB = Fulfilled "success" /\ sheets exampleDB = true
   /\ List.length [["__ID"; "name"; "age"]] <= 1)
  /\ find exampleDB (Returned (Some [["__ID"; "name"; "age"]])) [("city", VString "Oslo")]
     = Ok []
  /\ find exampleDB (Returned None) [("city", VString "Oslo")]
     = Throw (readOfUndefined "length").
Proof.
  assert (H1 : isReady exampleDB = Fulfilled "success") by reflexivity.
  assert (H2 : sheets exampleDB = true) by reflexivity.
  assert (H3 : List.length [["__ID"; "name"; "age"]] <= 1) by apply le_n.
  destruct (operations_without_data_rows exampleDB [("city", VString "Oslo")] []
              (Returned tt) "success" H1 H2) as [Hnone Hheader].
  split; [split; [exact H1|split; [exact H2|exact H3]]|].
  split; [exact (proj1 (Hheader _ H3))|exact (proj1 Hnone)].
Defined.

(** X13.  After a failed authentication.  When authentication throws at
    startup, the constructor issues no request, leaves the schema without
    assigned indices and still fulfils the barrier; from then on [find],
    [findOne], [update] and [delete] throw the TypeError of reading
    [spreadsheets] off [undefined], [create] throws an [Error] (a missing
    required field, or that same reading), and no operation issues a
    request. *)
Theorem operations_after_failed_authentication
        (s : Schema) (e : exn) (headerGet : outcome (option (list string)))
        (headerPut : outcome unit) :
  let started := construct s (Failed e) headerGet headerPut in
  let db := snd started in
  fst started = []
  /\ schema db = s
  /\ isReady db = Fulfilled "reject"
  /\ forall uniqueID data query newData getRes writeRes,
       find db getRes query = Throw (readOfUndefined "spreadsheets")
       /\ findOne db getRes query = Throw (readOfUndefined "spreadsheets")
       /\ update db getRes query newData writeRes
          = ([], Throw (readOfUndefined "spreadsheets"))
       /\ delete db getRes query writeRes
          = ([], Throw (readOfUndefined "spreadsheets"))
       /\ exists m, create db uniqueID data writeRes = ([], Throw (Error m)).
Proof.
  intros started db. repeat split.
  unfold create, db, started. simpl.
  destruct (createLoop s data [VString uniqueID]) as [row|e'|] eqn:E.
  - eauto.
  - eauto.
  - exfalso. revert E. generalize [VString uniqueID].
    induction s as [|[k f] s IH]; intros a; simpl; [discriminate|].
    destruct (truthy (required f) && isUndefined (get data k)); [discriminate|].
    apply IH.
Qed.

(** ** create *)

Lemma get_put (o : object value) (k k' : string) (v : value) :
  get (put o k v) k' = if String.eqb k' k then v else get o k'.
Proof.
  unfold get. rewrite own_put. destruct (String.eqb k' k); reflexivity.
Qed.

Lemma createLoop_elem (data : object value) (p : nat) (fields : Schema)
      (a row : list value) :
  createLoop fields data a = Ok row ->
  elem row p = match lastStore fields data p with
               | Some v => v
               | None => elem a p
               end.
Proof.
  revert a. induction fields as [|[k f] fields IH]; intros a; simpl.
  - intros [= <-]. reflexivity.
  - destruct (truthy (required f) && isUndefined (get data k)); [discriminate|].
    intros H. rewrite (IH _ H).
    destruct (lastStore fields data p); [reflexivity|].
    rewrite elem_storeAt. unfold atIndex.
    destruct (index f) as [n|]; [|reflexivity].
    rewrite (Nat.eqb_sym p n). destruct (Nat.eqb n p); reflexivity.
Qed.

Lemma lastStore_in (data : object value) (p : nat) (fields : Schema) (v : value) :
  lastStore fields data p = Some v ->
  exists k f, In (k, f) fields /\ index f = Some p /\ v = get data k.
Proof.
  induction fields as [|[k f] fields IH]; simpl; [discriminate|].
  destruct (lastStore fields data p) as [w|].
  - intros [= <-]. destruct (IH eq_refl) as (k' & f' & Hin & H).
    exists k', f'. split; [right; exact Hin|exact H].
  - destruct (atIndex f p) eqn:Ea; [|discriminate].
    intros [= <-]. exists k, f. split; [left; reflexivity|].
    split; [apply atIndex_true; exact Ea|reflexivity].
Qed.

Lemma lastStore_bound (data : object value) (p : nat) (fields : Schema)
      (k : string) (f : SchemaField) :
  In (k, f) fields -> index f = Some p ->
  exists v, lastStore fields data p = Some v.
Proof.
  intros Hin Hidx.
  induction fields as [|[k0 f0] fields IH]; [destruct Hin|]. simpl.
  destruct (lastStore fields data p) as [w|]; [eauto|].
  destruct Hin as [[= -> ->]|Hin].
  - apply atIndex_true in Hidx. rewrite Hidx. eauto.
  - destruct (IH Hin) as [v Hv]. discriminate.
Qed.

Lemma createLoop_complete (data : object value) (fields : Schema) (a : list value) :
  (forall k f, In (k, f) fields -> required f = Some true ->
               get data k <> VUndefined) ->
  exists row, createLoop fields data a = Ok row.
Proof.
  revert a. induction fields as [|[k f] fields IH]; intros a Hreq; simpl; [eauto|].
  assert (Hhere : truthy (required f) && isUndefined (get data k) = false).
  { destruct (required f) as [[|]|] eqn:Er; simpl; try reflexivity.
    apply isUndefined_false. apply (Hreq k f); [left; reflexivity|exact Er]. }
  rewrite Hhere. apply IH. intros k' f' Hin. apply Hreq. right. exact Hin.
Qed.

(** X14.  What create appends and returns.  On a ready instance, when no
    field marked required is [undefined] in the record (values of any
    type pass, no type is checked), [create] issues exactly one append,
    RAW, of a row in which cell 0 is the fresh identity unless a field is
    bound to column 0, the column a single field is bound to holds
    [data[field]], and every other column from 1 on is left undefined.
    When the append returns, [create] returns the record with "__ID" set
    to the fresh identity, over any "__ID" the record carried, and every
    other key as given. *)
Theorem create_appends_record
        (db : GoogleDB) (uniqueID : string) (data : object value)
        (appendRes : outcome unit) (v : string) :
  isReady db = Fulfilled v -> sheets db = true ->
  (forall k f, In (k, f) (schema db) -> required f = Some true ->
               get data k <> VUndefined) ->
  exists row,
    create db uniqueID data appendRes
    = ([ValuesAppend Sheet RAW row],
       match appendRes with
       | Returned _ => Ok (put data "__ID" (VString uniqueID))
       | Failed e => Throw (Error (message e))
       end)
    /\ ((forall k f, In (k, f) (schema db) -> index f <> Some 0) ->
        elem row 0 = VString uniqueID)
    /\ (forall p k f,
        In (k, f) (schema db) -> index f = Some p ->
        (forall k' f', In (k', f') (schema db) -> index f' = Some p -> k' = k) ->
        elem row p = get data k)
    /\ (forall p, 1 <= p ->
        (forall k f, In (k, f) (schema db) -> index f <> Some p) ->
        elem row p = VUndefined)
    /\ get (put data "__ID" (VString uniqueID)) "__ID" = VString uniqueID
    /\ (forall k, k <> "__ID" ->
        get (put data "__ID" (VString uniqueID)) k = get data k).
Proof.
  intros Hready Hsheets Hreq.
  destruct (createLoop_complete data (schema db) [VString uniqueID] Hreq)
    as [row Hrun].
  exists row.
  assert (Hfree : forall p,
             (forall k f, In (k, f) (schema db) -> index f <> Some p) ->
             elem row p = elem [VString uniqueID] p).
  { intros p Hnone. rewrite (createLoop_elem data p _ _ _ Hrun).
    destruct (lastStore (schema db) data p) as [w|] eqn:E; [|reflexivity].
    destruct (lastStore_in _ _ _ _ E) as (k & f & Hin & Hp & _).
    elim (Hnone k f Hin Hp). }
  split; [|split; [|split; [|split; [|split]]]].
  - unfold create. rewrite Hready, Hsheets. cbn [await]. rewrite Hrun. reflexivity.
  - intros Hnone. rewrite (Hfree 0 Hnone). reflexivity.
  - intros p k f Hin Hp Huniq. rewrite (createLoop_elem data p _ _ _ Hrun).
    destruct (lastStore_bound data p (schema db) k f Hin Hp) as [w Hw].
    rewrite Hw. destruct (lastStore_in _ _ _ _ Hw) as (k' & f' & Hin' & Hp' & ->).
    rewrite (Huniq k' f' Hin' Hp'). reflexivity.
  - intros p Hp Hnone. rewrite (Hfree p Hnone).
    destruct p as [|[|p]]; [lia|reflexivity..].
  - rewrite get_put, String.eqb_refl. reflexivity.
  - intros k Hk. rewrite get_put. apply String.eqb_neq in Hk. rewrite Hk.
    reflexivity.
Qed.

Lemma exampleDB_single_column (p : nat) (k : string) (f : SchemaField) :
  In (k, f) (schema exampleDB) -> index f = Some p ->
  forall k' f', In (k', f') (schema exampleDB) -> index f' = Some p -> k' = k.
Proof.
  intros [H|[H|[]]] Hp k' f' [H'|[H'|[]]] Hp';
    injection H as <- <-; injection H' as <- <-; simpl in *;
    try reflexivity; congruence.
Defined.

Lemma create_appends_record_witness :
  let data := [("__ID", VString "mine"); ("name", VString "Ann");
               ("age", VString "thirty")] in
  (isReady exampleDB = Fulfilled "success" /\ sheets exampleDB = true
   /\ In ("age", mkField TNumber (Some true) (Some 2)) (schema exampleDB))
  /\ exists row,
      create exampleDB "id-9" data (Returned tt)
      = ([ValuesAppend Sheet RAW row], Ok (put data "__ID" (VString "id-9")))
      /\ elem row 2 = VString "thirty"
      /\ get (put data "__ID" (VString "id-9")) "__ID" = VString "id-9".
Proof.
  intros data.
  assert (H1 : isReady exampleDB = Fulfilled "success") by reflexivity.
  assert (H2 : sheets exampleDB = true) by reflexivity.
  assert (H3 : forall k f, In (k, f) (schema exampleDB) -> required f = Some true ->
                           get data k <> VUndefined).
  { intros k f [H|[H|[]]] _; injection H as <- <-; discriminate. }
  assert (H4 : In ("age", mkField TNumber (Some true) (Some 2)) (schema exampleDB))
    by (right; left; reflexivity).
  destruct (create_appends_record exampleDB "id-9" data (Returned tt) "success"
              H1 H2 H3) as (row & Hrun & _ & Hcol & _ & Hid & _).
  split; [split; [exact H1|split; [exact H2|exact H4]]|].
  exists row. split; [exact Hrun|]. split; [|exact Hid].
  exact (Hcol 2 "age" _ H4 eq_refl (exampleDB_single_column 2 "age" _ H4 eq_refl)).
Defined.

Lemma createLoop_unbound (data : object value) (fields : Schema) (a : list value) :
  (forall k f, In (k, f) fields -> index f = None) ->
  (forall k f, In (k, f) fields -> required f = Some true ->
               get data k <> VUndefined) ->
  createLoop fields data a = Ok a.
Proof.
  induction fields as [|[k f] fields IH]; intros Hidx Hreq; simpl; [reflexivity|].
  assert (Hhere : truthy (required f) && isUndefined (get data k) = false).
  { destruct (required f) as [[|]|] eqn:Er; simpl; try reflexivity.
    apply isUndefined_false. apply (Hreq k f); [left; reflexivity|exact Er]. }
  rewrite Hhere, (Hidx k f (or_introl eq_refl)). simpl. apply IH.
  - intros k' f' Hin. apply (Hidx k' f'). right. exact Hin.
  - intros k' f' Hin. apply (Hreq k' f'). right. exact Hin.
Qed.

(** X15.  Create after a failed header fetch.  When the header fetch
    throws at startup, a schema declared without indices stays unbound,
    and the barrier is fulfilled all the same.  A later [create] of a
    record with all its required fields then appends a row made of the
    fresh identity alone: no field value reaches the sheet, and the
    record is returned as if it had been stored. *)
Theorem create_after_failed_header_fetch
        (s : Schema) (e : exn) (headerPut : outcome unit)
        (uniqueID : string) (data : object value) :
  (forall k f, In (k, f) s -> index f = None) ->
  (forall k f, In (k, f) s -> required f = Some true -> get data k <> VUndefined) ->
  let started := construct s (Returned tt) (Failed e) headerPut in
  fst started = []
  /\ isReady (snd started) = Fulfilled "reject"
  /\ create (snd started) uniqueID data (Returned tt)
     = ([ValuesAppend Sheet RAW [VString uniqueID]],
        Ok (put data "__ID" (VString uniqueID))).
Proof.
  intros Hidx Hreq started. split; [reflexivity|]. split; [reflexivity|].
  unfold create, started. simpl.
  rewrite (createLoop_unbound data s [VString uniqueID] Hidx Hreq). reflexivity.
Qed.

Lemma create_after_failed_header_fetch_witness :
  let data := [("name", VString "Ann"); ("age", VNumber (Finite false 30 0))] in
  let started := construct exampleSchema (Returned tt) (Failed (Error "503")) (Returned tt) in
  ((forall k f, In (k, f) exampleSchema -> index f = None)
   /\ (forall k f, In (k, f) exampleSchema -> required f = Some true ->
                   get data k <> VUndefined))
  /\ create (snd started) "id-9" data (Returned tt)
     = ([ValuesAppend Sheet RAW [VString "id-9"]],
        Ok (put data "__ID" (VString "id-9"))).
Proof.
  intros data started.
  assert (H1 : forall k f, In (k, f) exampleSchema -> index f = None).
  { intros k f [H|[H|[]]]; injection H as <- <-; reflexivity. }
  assert (H2 : forall k f, In (k, f) exampleSchema -> required f = Some true ->
                           get data k <> VUndefined).
  { intros k f [H|[H|[]]] _; injection H as <- <-; discriminate. }
  split; [split; [exact H1|exact H2]|].
  exact (proj2 (proj2 (create_after_failed_header_fetch exampleSchema (Error "503")
                         (Returned tt) "id-9" data H1 H2))).
Defined.

(** ** What update returns *)







(** ** The row update and delete act on *)

Lemma filtered_ok (s : Schema) (row : list string) (query : object value) (b : bool) :
  filtered s row query = Ok b -> b = negb (forallb (holds s row) query).
Proof.
  induction query as [|[k v] query IH]; cbn [filtered forallb].
  - intros [= <-]. reflexivity.
  - unfold holds at 1. unfold queriedCell, schemaIndex. cbn [fst snd].
    destruct (String.eqb k "__ID").
    + destruct (strictNotEqual (nth_error row 0) v); [intros [= <-]; reflexivity|].
      exact IH.
    + destruct (own s k) as [f|].
      * destruct (strictNotEqual (cellAt row (index f)) v);
          [intros [= <-]; reflexivity|exact IH].
      * destruct (inherited k); [|discriminate].
        destruct (strictNotEqual (cellAt row None) v);
          [intros [= <-]; reflexivity|exact IH].
Qed.

Lemma locate_first_holding (s : Schema) (allData : option grid)
      (query : object value) (i : nat) (row : list string) :
  locate s allData query = Ok (i, row) ->
  exists d, allData = Some d /\ 1 <= i /\ nth_error d i = Some row
    /\ forallb (holds s row) query = true
    /\ forall j r, 1 <= j < i -> nth_error d j = Some r ->
                   forallb (holds s r) query = false.
Proof.
  intros H. destruct (locate_first _ _ _ _ _ H) as (d & Hd & Hi & Hnth & Hf & Hbefore).
  exists d. split; [exact Hd|]. split; [exact Hi|]. split; [exact Hnth|]. split.
  - apply filtered_ok in Hf. apply negb_false_iff. symmetry. exact Hf.
  - intros j r Hj Hr. specialize (Hbefore j r Hj Hr).
    apply filtered_ok in Hbefore. apply negb_true_iff. symmetry. exact Hbefore.
Qed.

(** X17.  The row update and delete write to.  Every write [update] or
    [delete] issues goes to sheet row [i + 1] where [i >= 1] is the index
    of a fetched data row on which every key of the query holds, while on
    every data row above it some key fails; the header row is never
    written, and a blank row is taken like any other. *)
Theorem writes_go_to_first_holding_row
        (db : GoogleDB) (getRes : outcome (option grid))
        (query newData : object value) (updateRes : outcome unit) (req : request) :
  In req (fst (update db getRes query newData updateRes))
  \/ In req (fst (delete db getRes query updateRes)) ->
  exists d i row cells,
    getRes = Returned (Some d)
    /\ req = ValuesUpdate (RowNumber (i + 1)) USER_ENTERED cells
    /\ 1 <= i /\ nth_error d i = Some row
    /\ forallb (holds (schema db) row) query = true
    /\ forall j r, 1 <= j < i -> nth_error d j = Some r ->
                   forallb (holds (schema db) r) query = false.
Proof.
  unfold update, delete.
  destruct (await (isReady db)); [|intros [[]|[]]..].
  destruct (sheets db); [|intros [[]|[]]].
  destruct getRes as [allData|e]; [|intros [[]|[]]].
  destruct (locate (schema db) allData query) as [[i row]|e|] eqn:Hloc;
    [|intros [[]|[]]..].
  destruct (locate_first_holding _ _ _ _ _ Hloc) as (d & -> & Hi & Hnth & Hrow & Hbefore).
  intros [Hin|Hin].
  - destruct (patchLoop (schema db) newData (map VString row)) as [cells|e|];
      [|destruct Hin..].
    destruct Hin as [<-|[]]. exists d, i, row, cells.
    split; [reflexivity|]. split; [reflexivity|]. split; [exact Hi|].
    split; [exact Hnth|]. split; [exact Hrow|exact Hbefore].
  - destruct Hin as [<-|[]].
    exists d, i, row, (map (fun _ => VString "") row).
    split; [reflexivity|]. split; [reflexivity|]. split; [exact Hi|].
    split; [exact Hnth|]. split; [exact Hrow|exact Hbefore].
Qed.

Lemma writes_go_to_first_holding_row_witness :
  let query := [("name", VString "Bob")] in
  let req := ValuesUpdate (RowNumber 3) USER_ENTERED
               [VString ""; VString ""; VString ""] in
  (In req (fst (update exampleDB (Returned (Some exampleTable)) query [] (Returned tt)))
   \/ In req (fst (delete exampleDB (Returned (Some exampleTable)) query (Returned tt))))
  /\ exists d i row cells,
      Returned (Some exampleTable) = Returned (Some d)
      /\ req = ValuesUpdate (RowNumber (i + 1)) USER_ENTERED cells
      /\ 1 <= i /\ nth_error d i = Some row
      /\ forallb (holds (schema exampleDB) row) query = true.
Proof.
  intros query req.
  assert (H : In req (fst (update exampleDB (Returned (Some exampleTable)) query []
                             (Returned tt)))
              \/ In req (fst (delete exampleDB (Returned (Some exampleTable)) query
                                (Returned tt))))
    by (right; left; reflexivity).
  split; [exact H|].
  destruct (writes_go_to_first_holding_row exampleDB (Returned (Some exampleTable))
              query [] (Returned tt) req H)
    as (d & i & row & cells & H1 & H2 & H3 & H4 & H5 & _).
  exists d, i, row, cells.
  split; [exact H1|]. split; [exact H2|]. split; [exact H3|].
  split; [exact H4|exact H5].
Defined.

(** ** The order of the keys of a query *)

Lemma forallb_Permutation (A : Type) (p : A -> bool) (l l' : list A) :
  Permutation.Permutation l l' -> forallb p l = forallb p l'.
Proof.
  induction 1 as [|x l l' _ IH|x y l|l l' l'' _ IH1 _ IH2]; simpl.
  - reflexivity.
  - rewrite IH. reflexivity.
  - destruct (p x), (p y); reflexivity.
  - congruence.
Qed.

Lemma scan_known (s : Schema) (query query' : object value) (rows : grid) (i : nat) :
  forallb (knownKey s) (keys query) = true ->
  forallb (knownKey s) (keys query') = true ->
  (forall row, forallb (holds s row) query = forallb (holds s row) query') ->
  scan s rows query i = scan s rows query' i.
Proof.
  intros Hk Hk' Hsame. revert i. induction rows as [|r rows IH]; intros i; simpl;
    [reflexivity|].
  rewrite (filtered_known s r query Hk), (filtered_known s r query' Hk'), Hsame.
  destruct (forallb (holds s r) query'); simpl; [reflexivity|apply IH].
Qed.

(** X18.  The order of the keys of a query does not matter.  On a ready
    instance, two queries with the same keys and values in a different
    order, all keys being "__ID", schema fields or names every object
    inherits, give the same result in [find], [findOne], [update] and
    [delete]. *)
Theorem query_key_order_is_irrelevant
        (db : GoogleDB) (d : grid) (query query' newData : object value)
        (updateRes : outcome unit) (v : string) :
  isReady db = Fulfilled v -> sheets db = true ->
  forallb (knownKey (schema db)) (keys query) = true ->
  Permutation.Permutation query query' ->
  let getRes := Returned (Some d) in
  find db getRes query = find db getRes query'
  /\ findOne db getRes query = findOne db getRes query'
  /\ update db getRes query newData updateRes
     = update db getRes query' newData updateRes
  /\ delete db getRes query updateRes = delete db getRes query' updateRes.
Proof.
  intros Hready Hsheets Hk Hperm getRes.
  assert (Hk' : forallb (knownKey (schema db)) (keys query') = true).
  { rewrite <- Hk. symmetry. apply forallb_Permutation.
    unfold keys. apply Permutation.Permutation_map. exact Hperm. }
  assert (Hsame : forall row, forallb (holds (schema db) row) query
                              = forallb (holds (schema db) row) query')
    by (intros row; apply forallb_Permutation; exact Hperm).
  assert (Hm : forall rows, filter (matches (schema db) query) rows
                            = filter (matches (schema db) query') rows).
  { intros rows. apply filter_ext. intros row. unfold matches.
    rewrite Hsame. reflexivity. }
  unfold getRes, find, findOne.
  unfold convertDataToJSONWithFilters, convertDataToJSONWithFiltersOne.
  rewrite (convertRows_known _ _ (tl d) [] Hk), (convertRows_known _ _ (tl d) [] Hk').
  rewrite (convertRowsOne_known _ _ (tl d) Hk), (convertRowsOne_known _ _ (tl d) Hk').
  rewrite Hm.
  split; [reflexivity|]. split; [reflexivity|].
  unfold update, delete, locate.
  rewrite (scan_known (schema db) query query' (tl d) 1 Hk Hk' Hsame).
  split; reflexivity.
Qed.

Lemma query_key_order_is_irrelevant_witness :
  let query := [("name", VString "Bob"); ("age", VString "41")] in
  let query' := [("age", VString "41"); ("name", VString "Bob")] in
  (isReady exampleDB = Fulfilled "success" /\ sheets exampleDB = true
   /\ forallb (knownKey (schema exampleDB)) (keys query) = true
   /\ Permutation.Permutation query query')
  /\ find exampleDB (Returned (Some exampleTable)) query
     = find exampleDB (Returned (Some exampleTable)) query'.
Proof.
  intros query query'.
  assert (H1 : isReady exampleDB = Fulfilled "success") by reflexivity.
  assert (H2 : sheets exampleDB = true) by reflexivity.
  assert (H3 : forallb (knownKey (schema exampleDB)) (keys query) = true)
    by reflexivity.
  assert (H4 : Permutation.Permutation query query') by apply Permutation.perm_swap.
  split; [split; [exact H1|split; [exact H2|split; [exact H3|exact H4]]]|].
  exact (proj1 (query_key_order_is_irrelevant exampleDB exampleTable query query'
                  [] (Returned tt) "success" H1 H2 H3 H4)).
Defined.

(** ** A failed header write *)

(** X19.  A failed header write goes unnoticed.  When the header was
    fetched but its write threw, the schema is bound in memory as after a
    successful start, and every operation behaves exactly as on the
    instance of a successful start, although the header row was never
    stored. *)
Theorem failed_header_write_goes_unnoticed
        (s : Schema) (fetched : option (list string)) (e : exn) :
  let good := snd (construct s (Returned tt) (Returned fetched) (Returned tt)) in
  let bad := snd (construct s (Returned tt) (Returned fetched) (Failed e)) in
  schema bad = schema good
  /\ headers bad = headers good
  /\ isReady bad = Fulfilled "reject"
  /\ forall uniqueID data query newData getRes writeRes,
       create bad uniqueID data writeRes = create good uniqueID data writeRes
       /\ find bad getRes query = find good getRes query
       /\ findOne bad getRes query = findOne good getRes query
       /\ update bad getRes query newData writeRes
          = update good getRes query newData writeRes
       /\ delete bad getRes query writeRes = delete good getRes query writeRes.
Proof.
  intros good bad. repeat split.
Qed.

(** ** A patch that names no schema field *)

Lemma patchLoop_absent (newData : object value) (fields : Schema) (a : list value) :
  (forall k f, In (k, f) fields -> get newData k = VUndefined) ->
  patchLoop fields newData a = Ok a.
Proof.
  induction fields as [|[k f] fields IH]; intros H; simpl; [reflexivity|].
  rewrite (H k f (or_introl eq_refl)). simpl. apply IH.
  intros k' f' Hin. apply (H k' f'). right. exact Hin.
Qed.

(** X20.  A patch without schema fields.  When the patch sets no schema
    field (it is empty, or names only keys the schema lacks, or sets its
    fields to [undefined]), [update] validates nothing and still writes:
    once a row is located it sends that row back exactly as fetched, with
    USER_ENTERED, to the sheet row it came from. *)
Theorem update_with_nothing_to_change
        (db : GoogleDB) (allData : option grid) (query newData : object value)
        (updateRes : outcome unit) (v : string) (i : nat) (row : list string) :
  isReady db = Fulfilled v -> sheets db = true ->
  locate (schema db) allData query = Ok (i, row) ->
  (forall k f, In (k, f) (schema db) -> get newData k = VUndefined) ->
  update db (Returned allData) query newData updateRes
  = ([ValuesUpdate (RowNumber (i + 1)) USER_ENTERED (map VString row)],
     match updateRes with
     | Returned _ => Ok (readBack (schema db) (map VString row) newData)
     | Failed e => Throw e
     end).
Proof.
  intros Hready Hsheets Hloc Habsent. unfold update.
  rewrite Hready, Hsheets. cbn [await].
  rewrite Hloc, (patchLoop_absent newData (schema db) _ Habsent). reflexivity.
Qed.

Lemma update_with_nothing_to_change_witness :
  let query := [("__ID", VString "id-1")] in
  let newData := [("nickname", VString "A")] in
  (isReady exampleDB = Fulfilled "success" /\ sheets exampleDB = true
   /\ locate (schema exampleDB) (Some exampleTable) query = Ok (1, ["id-1"; "Ann"; "30"])
   /\ forall k f, In (k, f) (schema exampleDB) -> get newData k = VUndefined)
  /\ fst (update exampleDB (Returned (Some exampleTable)) query newData (Returned tt))
     = [ValuesUpdate (RowNumber 2) USER_ENTERED
          [VString "id-1"; VString "Ann"; VString "30"]].
Proof.
  intros query newData.
  assert (H1 : isReady exampleDB = Fulfilled "success") by reflexivity.
  assert (H2 : sheets exampleDB = true) by reflexivity.
  assert (H3 : locate (schema exampleDB) (Some exampleTable) query
               = Ok (1, ["id-1"; "Ann"; "30"])) by reflexivity.
  assert (H4 : forall k f, In (k, f) (schema exampleDB) -> get newData k = VUndefined).
  { intros k f [H|[H|[]]]; injection H as <- <-; reflexivity. }
  split; [split; [exact H1|split; [exact H2|split; [exact H3|exact H4]]]|].
  exact (f_equal fst (update_with_nothing_to_change exampleDB (Some exampleTable)
                        query newData (Returned tt) "success" 1
                        ["id-1"; "Ann"; "30"] H1 H2 H3 H4)).
Defined.
